(** * Enterprise ML pipeline: compliance validator, notification chain and
      top-level run of [demo/enterprise_ml_pipeline.py]

    The Python module is embedded shallowly.  Dictionaries with a fixed,
    statically known key set ([compliance_result], [final_result]) are
    records; dictionaries received from outside ([data], [error_details],
    the chain's output) are [gmap string value].  Objects with mutable
    fields are threaded explicitly: a method takes [self] and returns the
    new [self].  Exceptions are an [Outcome].  The LangChain
    [SequentialChain], the wall clock, the process environment and the
    float formatting of the elapsed time are external and enter as
    section variables.  [logger] calls write to the logging subsystem only
    and are not modelled. *)

From Stdlib Require Import Ascii String.
From stdpp Require Import base strings list gmap pretty.

(** ** Python values and dictionaries *)

Module Py.

(** The values that flow through the contexts of this module. *)
Inductive value : Type :=
| VNone
| VBool (b : bool)
| VInt (z : Z)
| VStr (s : string).

(** Python truthiness ([bool(v)]). *)
Definition truthy (v : value) : bool :=
  match v with
  | VNone => false
  | VBool b => b
  | VInt z => negb (Z.eqb z 0)
  | VStr s => negb (String.eqb s "")
  end.

(** [key in d] for a dict. *)
Definition dict_in {V : Type} (key : string) (d : gmap string V) : bool :=
  bool_decide (is_Some (d !! key)).

(** [x in l] for a list of strings. *)
Definition list_in (x : string) (l : list string) : bool :=
  bool_decide (x ∈ l).

(** [all(p(x) for x in l)]. *)
Definition all {A : Type} (p : A → bool) (l : list A) : bool := forallb p l.

(** [a or b] on optional strings: [a] when it is a non-empty string. *)
Definition str_truthy (o : option string) : bool :=
  match o with
  | Some s => negb (String.eqb s "")
  | None => false
  end.

Definition or_else (a b : option string) : option string :=
  if str_truthy a then a else b.

(** [str.lower].  A string is its UTF-8 bytes and only the ASCII capitals are
    folded.  For the one use in this module, a search for an all-ASCII
    needle, this agrees with Python on every message: the bytes of a
    non-ASCII character are never ASCII, and the only non-ASCII characters
    whose lower case contains an ASCII letter of the needle (U+0130, which
    gives [i] followed by U+0307) cannot complete an occurrence of it. *)
Definition lower_ascii (c : ascii) : ascii :=
  let n := nat_of_ascii c in
  if (65 <=? n)%nat && (n <=? 90)%nat then ascii_of_nat (n + 32) else c.

Fixpoint lower (s : string) : string :=
  match s with
  | EmptyString => EmptyString
  | String c s' => String (lower_ascii c) (lower s')
  end.

(** [needle in hay] for strings: some suffix of [hay] starts with [needle]. *)
Fixpoint str_in (needle hay : string) : bool :=
  String.prefix needle hay ||
  match hay with
  | EmptyString => false
  | String _ hay' => str_in needle hay'
  end.

End Py.

(** ** datetime *)

Module Datetime.

Record datetime : Type := {
  year : nat; month : nat; day : nat;
  hour : nat; minute : nat; second : nat; microsecond : nat
}.

(** Decimal rendering, left-padded with zeros to [width] characters. *)
Fixpoint zeros (n : nat) : string :=
  match n with
  | O => ""
  | S n' => String "0" (zeros n')
  end.

Definition zfill (width : nat) (n : nat) : string :=
  let s := pretty n in
  zeros (width - String.length s) +:+ s.

(** [dt.strftime('%Y%m%d_%H%M%S')] *)
Definition strftime_Ymd_HMS (dt : datetime) : string :=
  zfill 4 (year dt) +:+ zfill 2 (month dt) +:+ zfill 2 (day dt) +:+ "_" +:+
  zfill 2 (hour dt) +:+ zfill 2 (minute dt) +:+ zfill 2 (second dt).

(** [dt.isoformat()]: the fraction is printed only when it is not zero. *)
Definition isoformat (dt : datetime) : string :=
  zfill 4 (year dt) +:+ "-" +:+ zfill 2 (month dt) +:+ "-" +:+ zfill 2 (day dt) +:+
  "T" +:+ zfill 2 (hour dt) +:+ ":" +:+ zfill 2 (minute dt) +:+ ":" +:+
  zfill 2 (second dt) +:+
  (if (microsecond dt =? 0)%nat then "" else "." +:+ zfill 6 (microsecond dt)).

(** The wall clock: the [n]-th call of [datetime.utcnow()] of the process
    returns [reading n]. *)
Record Clock : Type := { reading : nat → datetime; ticks : nat }.

Definition utcnow (c : Clock) : datetime * Clock :=
  (reading c (ticks c), {| reading := reading c; ticks := S (ticks c) |}).

End Datetime.

Import Py Datetime.

(** ** class EnterpriseComplianceChain *)

Module EnterpriseComplianceChain.

(** The [compliance_result] dictionary.  The three [*_status] keys are set
    only on some paths, hence optional. *)
Record ComplianceReport : Type := {
  timestamp : string;
  standards_checked : list string;
  compliance_status : string;
  violations : list string;
  audit_id : string;
  sox_status : option string;
  gdpr_status : option string;
  hipaa_status : option string
}.

(** The object: [self.standards] and [self.audit_trail]. *)
Record t : Type := {
  standards : list string;
  audit_trail : list ComplianceReport
}.

Definition default_standards : list string := ["SOX"; "GDPR"; "HIPAA"; "PCI_DSS"].

(** [__init__(self, standards=None)]: [standards or [...]] falls back to
    the default for [None] and for the empty list. *)
Definition init (standards : option (list string)) : t :=
  {| standards := match standards with
                  | Some (s :: l) => s :: l
                  | Some [] | None => default_standards
                  end;
     audit_trail := [] |}.

(** [compliance_result["violations"].append(v)] *)
Definition append_violation (v : string) (r : ComplianceReport) : ComplianceReport :=
  {| timestamp := timestamp r; standards_checked := standards_checked r;
     compliance_status := compliance_status r;
     violations := violations r ++ [v];
     audit_id := audit_id r; sox_status := sox_status r;
     gdpr_status := gdpr_status r; hipaa_status := hipaa_status r |}.

(** [compliance_result["sox_status"] = s] and its two siblings *)
Definition set_sox_status (s : string) (r : ComplianceReport) : ComplianceReport :=
  {| timestamp := timestamp r; standards_checked := standards_checked r;
     compliance_status := compliance_status r; violations := violations r;
     audit_id := audit_id r; sox_status := Some s;
     gdpr_status := gdpr_status r; hipaa_status := hipaa_status r |}.

Definition set_gdpr_status (s : string) (r : ComplianceReport) : ComplianceReport :=
  {| timestamp := timestamp r; standards_checked := standards_checked r;
     compliance_status := compliance_status r; violations := violations r;
     audit_id := audit_id r; sox_status := sox_status r;
     gdpr_status := Some s; hipaa_status := hipaa_status r |}.

Definition set_hipaa_status (s : string) (r : ComplianceReport) : ComplianceReport :=
  {| timestamp := timestamp r; standards_checked := standards_checked r;
     compliance_status := compliance_status r; violations := violations r;
     audit_id := audit_id r; sox_status := sox_status r;
     gdpr_status := gdpr_status r; hipaa_status := Some s |}.

Definition required_fields : list string :=
  ["data_classification"; "access_controls"; "audit_trail"].
Definition privacy_fields : list string :=
  ["consent_status"; "data_purpose"; "retention_period"].
Definition hipaa_fields : list string :=
  ["phi_classification"; "encryption_status"; "access_controls"].

Definition _validate_sox_compliance (data : gmap string value) : bool :=
  all (λ field, dict_in field data) required_fields.

Definition _validate_gdpr_compliance (data : gmap string value) : bool :=
  all (λ field, dict_in field data) privacy_fields.

Definition _validate_hipaa_compliance (data : gmap string value) : bool :=
  all (λ field, dict_in field data) hipaa_fields.

(** The three [if "X" in self.standards:] blocks of [validate]. *)
Definition check_sox (self : t) (data : gmap string value)
    (r : ComplianceReport) : ComplianceReport :=
  if list_in "SOX" (standards self) then
    if _validate_sox_compliance data then set_sox_status "COMPLIANT" r
    else append_violation "SOX violation detected" r
  else r.

Definition check_gdpr (self : t) (data : gmap string value)
    (r : ComplianceReport) : ComplianceReport :=
  if list_in "GDPR" (standards self) then
    if _validate_gdpr_compliance data then set_gdpr_status "COMPLIANT" r
    else append_violation "GDPR violation detected" r
  else r.

Definition check_hipaa (self : t) (data : gmap string value)
    (r : ComplianceReport) : ComplianceReport :=
  if list_in "HIPAA" (standards self) then
    if _validate_hipaa_compliance data then set_hipaa_status "COMPLIANT" r
    else append_violation "HIPAA violation detected" r
  else r.

(** [validate(self, data)]: returns the report, the object after the call
    and the clock after the two [utcnow()] reads of the dict literal. *)
Definition validate (self : t) (data : gmap string value) (c : Clock)
    : ComplianceReport * t * Clock :=
  let '(t1, c) := utcnow c in
  let '(t2, c) := utcnow c in
  let compliance_result :=
    {| timestamp := isoformat t1;
       standards_checked := standards self;
       compliance_status := "PASSED";
       violations := [];
       audit_id := "audit_" +:+ strftime_Ymd_HMS t2;
       sox_status := None; gdpr_status := None; hipaa_status := None |} in
  let compliance_result := check_sox self data compliance_result in
  let compliance_result := check_gdpr self data compliance_result in
  let compliance_result := check_hipaa self data compliance_result in
  (compliance_result,
   {| standards := standards self;
      audit_trail := audit_trail self ++ [compliance_result] |},
   c).

(** The report of a call, and the object after it. *)
Definition report_of (self : t) (data : gmap string value) (c : Clock)
    : ComplianceReport := (validate self data c).1.1.

Definition self_after (self : t) (data : gmap string value) (c : Clock)
    : t := (validate self data c).1.2.

(** What the code requires of [data] for a standard: the field list of its
    [_validate_*] method, and nothing for a name that has no method. *)
Definition required_keys (standard : string) : list string :=
  if String.eqb standard "SOX" then required_fields
  else if String.eqb standard "GDPR" then privacy_fields
  else if String.eqb standard "HIPAA" then hipaa_fields
  else [].

(** The violation entry that names a standard. *)
Definition violation_entry (standard : string) : string :=
  standard +:+ " violation detected".

(** The per-standard status key of a report. *)
Definition status_of (standard : string) (r : ComplianceReport) : option string :=
  if String.eqb standard "SOX" then sox_status r
  else if String.eqb standard "GDPR" then gdpr_status r
  else if String.eqb standard "HIPAA" then hipaa_status r
  else None.

End EnterpriseComplianceChain.

Module ECC := EnterpriseComplianceChain.

(** ** class EnterpriseNotificationChain *)

Module EnterpriseNotificationChain.

Record t : Type := {
  slack_webhook : option string;
  pagerduty_key : option string
}.

(** [__init__]: an argument that is [None] or empty falls back to the
    environment variable. *)
Definition init (getenv : string → option string)
    (slack_webhook pagerduty_key : option string) : t :=
  {| slack_webhook := or_else slack_webhook (getenv "SLACK_WEBHOOK_URL");
     pagerduty_key := or_else pagerduty_key (getenv "PAGERDUTY_INTEGRATION_KEY") |}.

(** The dictionary both notifiers return. *)
Record NotificationOutcome : Type := {
  notifications_sent : list string;
  status : string
}.

(** [notify_success]: the Slack message is assembled from [pipeline_result]
    and dropped, nothing is sent; the result depends on the webhook only. *)
Definition notify_success {R : Type} (self : t) (pipeline_result : R)
    : NotificationOutcome :=
  let notifications_sent : list string := [] in
  let notifications_sent : list string :=
    if str_truthy (slack_webhook self) then notifications_sent ++ ["slack"]
    else notifications_sent in
  {| notifications_sent := notifications_sent; status := "success" |}.

(** [error_details.get("severity") == "critical"] *)
Definition severity_is_critical (error_details : gmap string value) : bool :=
  match error_details !! "severity" with
  | Some (VStr s) => String.eqb s "critical"
  | _ => false
  end.

(** [notify_failure]: as above, the PagerDuty payload is assembled and
    dropped. *)
Definition notify_failure (self : t) (error_details : gmap string value)
    : NotificationOutcome :=
  let notifications_sent : list string := [] in
  let notifications_sent : list string :=
    if str_truthy (pagerduty_key self) && severity_is_critical error_details
    then notifications_sent ++ ["pagerduty"]
    else notifications_sent in
  {| notifications_sent := notifications_sent; status := "failure_notified" |}.

End EnterpriseNotificationChain.

Module ENC := EnterpriseNotificationChain.

(** ** The module-level pipeline and [run_enterprise_pipeline] *)

Module Pipeline.

(** An exception seen through [type(e).__name__], [str(e)] and
    [isinstance(e, Exception)].  The last is what [except Exception] tests:
    it is [false] for the [BaseException] subclasses outside [Exception],
    such as [KeyboardInterrupt], [SystemExit] and [GeneratorExit]. *)
Record Exn : Type := {
  type_name : string;
  message : string;
  is_exception : bool
}.

Inductive Outcome (A : Type) : Type :=
| Returned (a : A)
| Raised (e : Exn).
Arguments Returned {A} a.
Arguments Raised {A} e.

(** The module globals that a run reads or writes, and the clock. *)
Record World : Type := {
  compliance_validator : ECC.t;
  notification_system : ENC.t;
  clock : Clock
}.

(** State that survives a raise, with exceptions. *)
Definition M (A : Type) : Type := World → Outcome A * World.

Definition ret {A : Type} (a : A) : M A := λ w, (Returned a, w).

Definition bind {A B : Type} (m : M A) (k : A → M B) : M B :=
  λ w, match m w with
       | (Returned a, w') => k a w'
       | (Raised e, w') => (Raised e, w')
       end.

Notation "x <~ m ;; k" := (bind m (λ x, k))
  (at level 100, m at next level, right associativity).

(** [datetime.utcnow()] *)
Definition now : M datetime :=
  λ w, let '(t, c) := utcnow (clock w) in
       (Returned t,
        {| compliance_validator := compliance_validator w;
           notification_system := notification_system w;
           clock := c |}).

(** [compliance_validator.validate(data)] on the global object. *)
Definition validate (data : gmap string value) : M ECC.ComplianceReport :=
  λ w, let '(r, self, c) := ECC.validate (compliance_validator w) data (clock w) in
       (Returned r,
        {| compliance_validator := self;
           notification_system := notification_system w;
           clock := c |}).

(** [notification_system.notify_success(r)] and [notify_failure(d)] *)
Definition notify_success {R : Type} (pipeline_result : R) : M ENC.NotificationOutcome :=
  λ w, (Returned (ENC.notify_success (notification_system w) pipeline_result), w).

Definition notify_failure (error_details : gmap string value)
    : M ENC.NotificationOutcome :=
  λ w, (Returned (ENC.notify_failure (notification_system w) error_details), w).

(** [d[key]]: raises [KeyError] when the key is missing. *)
Definition getitem (d : gmap string value) (key : string) : M value :=
  λ w, match d !! key with
       | Some v => (Returned v, w)
       | None => (Raised {| type_name := "KeyError";
                            message := "'" +:+ key +:+ "'";
                            is_exception := true |}, w)
       end.

(** The [performance_metrics] literal. *)
Definition performance_metrics : gmap string value :=
  list_to_map [("throughput", VStr "50MB/sec"); ("memory_usage", VStr "25MB peak");
               ("cpu_efficiency", VStr "92%"); ("cost_per_execution", VStr "$0.03")].

(** [final_result]; [notification_status] is assigned after the literal. *)
Record FinalResult : Type := {
  status : string;
  execution_id : value;
  processing_time : string;
  records_processed : string;
  compliance_status : string;
  final_performance_metrics : gmap string value;
  pipeline_output : gmap string value;
  compliance_report : ECC.ComplianceReport;
  audit_trail_id : string;
  notification_status : option ENC.NotificationOutcome
}.

Definition set_notification_status (n : ENC.NotificationOutcome) (r : FinalResult)
    : FinalResult :=
  {| status := status r; execution_id := execution_id r;
     processing_time := processing_time r;
     records_processed := records_processed r;
     compliance_status := compliance_status r;
     final_performance_metrics := final_performance_metrics r;
     pipeline_output := pipeline_output r;
     compliance_report := compliance_report r;
     audit_trail_id := audit_trail_id r;
     notification_status := Some n |}.

(** The dictionary returned by the [except] branch. *)
Record FailureResult : Type := {
  failure_status : string;
  error_details : gmap string value;
  failure_compliance_status : string
}.

Inductive PipelineResult : Type :=
| Success (r : FinalResult)
| Failure (f : FailureResult).

(** [result["status"]], [result["compliance_status"]],
    [result.get("compliance_report")] *)
Definition result_status (r : PipelineResult) : string :=
  match r with
  | Success r => status r
  | Failure f => failure_status f
  end.

Definition result_compliance_status (r : PipelineResult) : string :=
  match r with
  | Success r => compliance_status r
  | Failure f => failure_compliance_status f
  end.

Definition result_compliance_report (r : PipelineResult) : option ECC.ComplianceReport :=
  match r with
  | Success r => Some (compliance_report r)
  | Failure _ => None
  end.


(** ["critical" if "authentication" in str(e).lower() else "high"] *)
Definition severity_of (e : Exn) : string :=
  if str_in "authentication" (lower (message e)) then "critical" else "high".

(** The [error_details] literal of the [except] block. *)
Definition make_error_details (e : Exn) (pipeline_input : gmap string value)
    (timestamp : datetime) : gmap string value :=
  list_to_map
    [("error_type", VStr (type_name e));
     ("error_message", VStr (message e));
     ("execution_id", default (VStr "unknown") (pipeline_input !! "execution_id"));
     ("timestamp", VStr (isoformat timestamp));
     ("severity", VStr (severity_of e))].

Section Run.

(** [enterprise_ml_pipeline(pipeline_input)]: the LangChain call either
    returns its output dictionary or raises. *)
Variable enterprise_ml_pipeline : gmap string value → Outcome (gmap string value).

(** [f"{(t1 - t0).total_seconds():.2f}"] *)
Variable format_elapsed : datetime → datetime → string.

Definition call_pipeline (pipeline_input : gmap string value)
    : M (gmap string value) :=
  λ w, (enterprise_ml_pipeline pipeline_input, w).

(** The [pipeline_input] literal. *)
Definition make_pipeline_input (dataset_id compliance_level analysis_type : string)
    (pipeline_start_time : datetime) : gmap string value :=
  list_to_map
    [("dataset_id", VStr dataset_id);
     ("compliance_level", VStr compliance_level);
     ("analysis_type", VStr analysis_type);
     ("execution_id", VStr ("exec_" +:+ strftime_Ymd_HMS pipeline_start_time));
     ("data_classification", VStr "CONFIDENTIAL");
     ("access_controls", VStr "RBAC_ENABLED");
     ("audit_trail", VStr "REQUIRED");
     ("consent_status", VStr "EXPLICIT_CONSENT");
     ("data_purpose", VStr "BUSINESS_INTELLIGENCE");
     ("retention_period", VStr "7_YEARS");
     ("phi_classification", VStr "NON_PHI");
     ("encryption_status", VStr "AES_256_ENCRYPTED")].

(** The statements of the [try] block after [pipeline_input]. *)
Definition try_block (pipeline_input : gmap string value)
    (pipeline_start_time : datetime) : M FinalResult :=
  pipeline_result <~ call_pipeline pipeline_input ;;
  compliance_result <~ validate pipeline_input ;;
  pipeline_end_time <~ now ;;
  execution_id <~ getitem pipeline_input "execution_id" ;;
  let final_result :=
    {| status := "SUCCESS";
       execution_id := execution_id;
       processing_time :=
         format_elapsed pipeline_start_time pipeline_end_time +:+ " seconds";
       records_processed := "1,000,000+ records";
       compliance_status := ECC.compliance_status compliance_result;
       final_performance_metrics := performance_metrics;
       pipeline_output := pipeline_result;
       compliance_report := compliance_result;
       audit_trail_id := ECC.audit_id compliance_result;
       notification_status := None |} in
  notification_result <~ notify_success final_result ;;
  ret (set_notification_status notification_result final_result).

(** The [except Exception as e] block. *)
Definition except_block (e : Exn) (pipeline_input : gmap string value)
    : M FailureResult :=
  timestamp <~ now ;;
  let error_details := make_error_details e pipeline_input timestamp in
  _ <~ notify_failure error_details ;;
  ret {| failure_status := "FAILURE";
         error_details := error_details;
         failure_compliance_status := "UNKNOWN" |}.

(** [run_enterprise_pipeline]: [try] ... [except Exception].  The handler
    runs for an exception that is an instance of [Exception]; any other one
    leaves the function as it came. *)
Definition run_enterprise_pipeline
    (dataset_id compliance_level analysis_type : string)
    : M PipelineResult :=
  pipeline_start_time <~ now ;;
  let pipeline_input :=
    make_pipeline_input dataset_id compliance_level analysis_type
                        pipeline_start_time in
  λ w, match try_block pipeline_input pipeline_start_time w with
       | (Returned final_result, w') => (Returned (Success final_result), w')
       | (Raised e, w') =>
           if is_exception e
           then (f <~ except_block e pipeline_input ;; ret (Failure f)) w'
           else (Raised e, w')
       end.

(** *** The run with the notifier's method left open

    [notification_system.notify_success] (l.324) is looked up on the module's
    object when the [try] block gets there.  The method of this file builds
    a message and drops it; it has no raising path.  To say what the
    function does around a method that can raise (one that posts to the
    webhook, say), the same statements are given once more with the bound
    method as an argument.  [ENC.notify_success] put for it gives back
    [try_block] and [run_enterprise_pipeline]. *)
Definition Notifier : Type :=
  ENC.t → FinalResult → Outcome ENC.NotificationOutcome.

Definition notify_success_with (notify : Notifier) (pipeline_result : FinalResult)
    : M ENC.NotificationOutcome :=
  λ w, (notify (notification_system w) pipeline_result, w).

Definition try_block_with (notify : Notifier)
    (pipeline_input : gmap string value)
    (pipeline_start_time : datetime) : M FinalResult :=
  pipeline_result <~ call_pipeline pipeline_input ;;
  compliance_result <~ validate pipeline_input ;;
  pipeline_end_time <~ now ;;
  execution_id <~ getitem pipeline_input "execution_id" ;;
  let final_result :=
    {| status := "SUCCESS";
       execution_id := execution_id;
       processing_time :=
         format_elapsed pipeline_start_time pipeline_end_time +:+ " seconds";
       records_processed := "1,000,000+ records";
       compliance_status := ECC.compliance_status compliance_result;
       final_performance_metrics := performance_metrics;
       pipeline_output := pipeline_result;
       compliance_report := compliance_result;
       audit_trail_id := ECC.audit_id compliance_result;
       notification_status := None |} in
  notification_result <~ notify_success_with notify final_result ;;
  ret (set_notification_status notification_result final_result).

Definition run_enterprise_pipeline_with (notify : Notifier)
    (dataset_id compliance_level analysis_type : string)
    : M PipelineResult :=
  pipeline_start_time <~ now ;;
  let pipeline_input :=
    make_pipeline_input dataset_id compliance_level analysis_type
                        pipeline_start_time in
  λ w, match try_block_with notify pipeline_input pipeline_start_time w with
       | (Returned final_result, w') => (Returned (Success final_result), w')
       | (Raised e, w') =>
           if is_exception e
           then (f <~ except_block e pipeline_input ;; ret (Failure f)) w'
           else (Raised e, w')
       end.

End Run.

(** The method the class of this file has. *)
Definition notify_success_method : Notifier :=
  λ self pipeline_result, Returned (ENC.notify_success self pipeline_result).

(** The module-level objects as the import leaves them. *)
Definition initial_world (getenv : string → option string) (c : Clock) : World :=
  {| compliance_validator := ECC.init (Some ["SOX"; "GDPR"; "HIPAA"; "PCI_DSS"]);
     notification_system := ENC.init getenv None None;
     clock := c |}.

End Pipeline.

Import Pipeline.

(** ** Auxiliary definitions for the statements *)

(** What one [if "X" in self.standards] block adds to [violations]. *)
Definition block_violations (standard : string) (ok : bool) (self : ECC.t)
    : list string :=
  if list_in standard (ECC.standards self) && negb ok
  then [ECC.violation_entry standard] else [].

(** What it stores under the standard's status key. *)
Definition block_status (standard : string) (ok : bool) (self : ECC.t)
    : option string :=
  if list_in standard (ECC.standards self) && ok then Some "COMPLIANT" else None.

(** Concrete objects used to run the code. *)
Module Examples.

Definition clock0 : Clock :=
  {| reading := λ n, {| year := 2024; month := 3; day := 9; hour := 7;
                        minute := 5; second := n; microsecond := 0 |};
     ticks := 0 |}.

Definition sox_only : ECC.t := ECC.init (Some ["SOX"]).
Definition gdpr_only : ECC.t := ECC.init (Some ["GDPR"]).
Definition pci_only : ECC.t := ECC.init (Some ["PCI_DSS"]).
Definition all_defaults : ECC.t := ECC.init None.

(** [{data_classification, access_controls, audit_trail}] *)
Definition sox_context : gmap string value :=
  list_to_map [("data_classification", VStr "CONFIDENTIAL");
               ("access_controls", VStr "RBAC_ENABLED");
               ("audit_trail", VStr "REQUIRED")].

(** The same keys, each bound to the empty string. *)
Definition sox_context_empty_values : gmap string value :=
  list_to_map [("data_classification", VStr "");
               ("access_controls", VStr "");
               ("audit_trail", VStr "")].

(** A GDPR context without [consent_status]. *)
Definition no_consent_context : gmap string value :=
  list_to_map [("data_purpose", VStr "BUSINESS_INTELLIGENCE");
               ("retention_period", VStr "7_YEARS")].

End Examples.

(** Concrete runs. *)
Module RunExamples.

Definition auth_error : Exn :=
  {| type_name := "RuntimeError"; message := "authentication token expired";
     is_exception := true |}.

Definition timeout_error : Exn :=
  {| type_name := "TimeoutError"; message := "downstream timeout";
     is_exception := true |}.

(** Ctrl-C while the chain runs: not an [Exception]. *)
Definition keyboard_interrupt : Exn :=
  {| type_name := "KeyboardInterrupt"; message := "";
     is_exception := false |}.

(** [sys.exit("authentication failed")] inside the chain: its message has
    the needle, and it is not an [Exception] either. *)
Definition system_exit : Exn :=
  {| type_name := "SystemExit"; message := "authentication failed";
     is_exception := false |}.


(** The needle in capitals. *)
Definition oauth_error : Exn :=
  {| type_name := "HTTPError"; message := "401 OAuth AUTHENTICATION failed";
     is_exception := true |}.


Definition chain_raising (e : Exn) : gmap string value → Outcome (gmap string value) :=
  λ _, Raised e.

Definition chain_returning : gmap string value → Outcome (gmap string value) :=
  λ _, Returned {["llm_analysis" := VStr "ok"]}.

Definition format_elapsed : datetime → datetime → string := λ _ _, "0.00".

(** Neither [SLACK_WEBHOOK_URL] nor [PAGERDUTY_INTEGRATION_KEY] is set. *)
Definition bare_world : World := initial_world (λ _, None) Examples.clock0.

(** Both variables are set. *)
Definition wired_world : World :=
  initial_world (λ _, Some "https://hooks.example/T0") Examples.clock0.

Definition run (chain : gmap string value → Outcome (gmap string value))
    (w : World) : Outcome PipelineResult * World :=
  run_enterprise_pipeline chain format_elapsed
    "enterprise_demo" "all" "investment_analysis" w.

Definition run_with (notify : Notifier)
    (chain : gmap string value → Outcome (gmap string value))
    (w : World) : Outcome PipelineResult * World :=
  run_enterprise_pipeline_with chain format_elapsed notify
    "enterprise_demo" "all" "investment_analysis" w.

End RunExamples.

(** Further concrete objects. *)
Module MoreExamples.

(** The same standards in another order, with a repetition and a name that
    has no check. *)
Definition shuffled : ECC.t :=
  ECC.init (Some ["HIPAA"; "PCI_DSS"; "SOX"; "GDPR"; "SOX"]).

(** A clock that is [us] microseconds into one fixed second at every read. *)
Definition clock_at (us : nat) : Clock :=
  {| reading := λ _, {| year := 2024; month := 3; day := 9; hour := 7;
                        minute := 5; second := 30; microsecond := us |};
     ticks := 0 |}.

End MoreExamples.

(** ** [execute_coverage_missions.py] *)

Module CoverageMissions.

(** The module-level list. *)
Definition missions : list string :=
  ["missions/coverage/coverage_mission_001_src_core_chain.yaml";
   "missions/coverage/coverage_mission_002_src_llm_azure_openai_provider.yaml";
   "missions/coverage/coverage_mission_003_src_build_dashboard.yaml";
   "missions/coverage/coverage_mission_004_src_validation_mod.yaml";
   "missions/coverage/coverage_mission_005_src_core_features.yaml";
   "missions/coverage/coverage_mission_006_src_server_mod.yaml";
   "missions/coverage/coverage_mission_007_src_core_audit.yaml";
   "missions/coverage/coverage_mission_008_src_security_access_control.yaml";
   "missions/coverage/coverage_mission_009_src_core_plugin.yaml";
   "missions/coverage/coverage_mission_010_src_core_document_loaders.yaml";
   "missions/coverage/coverage_mission_011_src_security_encryption.yaml";
   "missions/coverage/coverage_mission_012_src_telemetry_mod.yaml";
   "missions/coverage/coverage_mission_013_src_tools_mod.yaml";
   "missions/coverage/coverage_mission_014_src_core_tools.yaml";
   "missions/coverage/coverage_mission_015_src_security_compliance.yaml";
   "missions/coverage/coverage_mission_016_src_llm_google_gemini_provider.yaml";
   "missions/coverage/coverage_mission_017_src_llm_test_connectivity.yaml";
   "missions/coverage/coverage_mission_018_src_security_threat_detection.yaml";
   "missions/coverage/coverage_mission_019_src_security_audit.yaml";
   "missions/coverage/coverage_mission_020_src_registry_mod.yaml";
   "missions/coverage/coverage_mission_021_src_llm_aws_bedrock_provider.yaml";
   "missions/coverage/coverage_mission_022_src_engine_mod.yaml";
   "missions/coverage/coverage_mission_023_src_core_memory.yaml";
   "missions/coverage/coverage_mission_024_src_compliance_mod.yaml";
   "missions/coverage/coverage_mission_025_src_llm_shimmy_provider.yaml";
   "missions/coverage/coverage_mission_026_src_smt_compliance_engine.yaml";
   "missions/coverage/coverage_mission_027_src_compliance_sdk.yaml";
   "missions/coverage/coverage_mission_028_src_core_mod.yaml";
   "missions/coverage/coverage_mission_029_src_core_agent.yaml";
   "missions/coverage/coverage_mission_030_src_sandbox_mod.yaml";
   "missions/coverage/coverage_mission_031_src_core_python_interpreter.yaml";
   "missions/coverage/coverage_mission_032_src_llm_mod.yaml";
   "missions/coverage/coverage_mission_033_src_core_error_formatting.yaml";
   "missions/coverage/coverage_mission_034_src_core_web_search_tools.yaml";
   "missions/coverage/coverage_mission_035_src_security_auth.yaml";
   "missions/coverage/coverage_mission_036_src_smt_solver.yaml";
   "missions/coverage/coverage_mission_037_src_core_llm.yaml";
   "missions/coverage/coverage_mission_038_src_invariant_ppt.yaml";
   "missions/coverage/coverage_mission_039_src_core_github_toolkit.yaml";
   "missions/coverage/coverage_mission_040_src_core_pinecone_vector_store.yaml";
   "missions/coverage/coverage_mission_041_src_core_chroma_vector_store.yaml";
   "missions/coverage/coverage_mission_042_src_rag_mod.yaml";
   "missions/coverage/coverage_mission_043_src_security_mod.yaml";
   "missions/coverage/coverage_mission_044_src_art_mod.yaml";
   "missions/coverage/coverage_mission_045_src_art_performance.yaml";
   "missions/coverage/coverage_mission_046_src_art_trajectory.yaml";
   "missions/coverage/coverage_mission_047_src_cli_handlers_enterprise.yaml";
   "missions/coverage/coverage_mission_048_src_cli_handlers_mod.yaml";
   "missions/coverage/coverage_mission_049_src_cli_interactive.yaml";
   "missions/coverage/coverage_mission_050_src_cli_mod.yaml";
   "missions/coverage/coverage_mission_051_src_concurrency.yaml";
   "missions/coverage/coverage_mission_052_src_core_executor.yaml";
   "missions/coverage/coverage_mission_053_src_core_mission.yaml";
   "missions/coverage/coverage_mission_054_src_engine_chain_executor.yaml";
   "missions/coverage/coverage_mission_055_src_infrastructure_schema.yaml";
   "missions/coverage/coverage_mission_056_src_smt_constraints.yaml";
   "missions/coverage/coverage_mission_057_src_smt_contextlite_bridge.yaml";
   "missions/coverage/coverage_mission_058_src_smt_mod.yaml";
   "missions/coverage/coverage_mission_059_src_smt_verification.yaml";
   "missions/coverage/coverage_mission_060_src_testing_invariants.yaml"].

(** [subprocess.CompletedProcess]; [stdout] and [stderr] are [None] when the
    output was not captured. *)
Record CompletedProcess : Type := {
  returncode : Z;
  stdout : option string;
  stderr : option string
}.

(** What the script does to the outside, in order, with the answers it got. *)
Inductive event : Type :=
| Print (line : string)
| PathExists (path : string) (found : bool)
| SubprocessRun (argv : list string) (capture_output : bool)
    (result : Outcome CompletedProcess)
| Sleep (seconds : nat).

(** The operating system: each answer may depend on all that happened
    before. *)
Record OS : Type := {
  os_path_exists : list event → string → bool;
  os_subprocess_run : list event → list string → bool → Outcome CompletedProcess
}.

(** Effects: the trace so far grows at its end; an exception ends the
    computation and keeps the trace. *)
Definition IO (A : Type) : Type := list event → Outcome A * list event.

Definition io_ret {A : Type} (a : A) : IO A := λ tr, (Returned a, tr).

Definition io_bind {A B : Type} (m : IO A) (k : A → IO B) : IO B :=
  λ tr, match m tr with
        | (Returned a, tr') => k a tr'
        | (Raised e, tr') => (Raised e, tr')
        end.

Notation "x <<- m ;; k" := (io_bind m (λ x, k))
  (at level 100, m at next level, right associativity).

Definition print (line : string) : IO unit :=
  λ tr, (Returned tt, tr ++ [Print line]).

Definition path_exists (os : OS) (path : string) : IO bool :=
  λ tr, let found := os_path_exists os tr path in
        (Returned found, tr ++ [PathExists path found]).

Definition subprocess_run (os : OS) (argv : list string) (capture_output : bool)
    : IO CompletedProcess :=
  λ tr, let result := os_subprocess_run os tr argv capture_output in
        (result, tr ++ [SubprocessRun argv capture_output result]).

Definition sleep (seconds : nat) : IO unit :=
  λ tr, (Returned tt, tr ++ [Sleep seconds]).

(** [f"{x}"] for an optional string. *)
Definition format_opt (o : option string) : string := default "None" o.

Definition newline : string := String (ascii_of_nat 10) EmptyString.

(** The command line of [execute_mission]. *)
Definition cargo_argv (mission_path : string) : list string :=
  ["cargo"; "run"; "--bin"; "rustchain"; "--features"; "llm";
   "--"; "run"; mission_path].

Definition execute_mission (os : OS) (mission_path : string)
    : IO (bool * option string * option string) :=
  _ <<- print ("Executing: " +:+ mission_path) ;;
  result <<- subprocess_run os (cargo_argv mission_path) true ;;
  io_ret (Z.eqb (returncode result) 0, stdout result, stderr result).

(** The [for mission in missions] loop of [main], with its two counters. *)
Fixpoint main_loop (os : OS) (ms : list string) (successful failed : nat)
    : IO (nat * nat) :=
  match ms with
  | [] => io_ret (successful, failed)
  | mission :: ms' =>
      found <<- path_exists os mission ;;
      if negb found then
        _ <<- print ("SKIP: " +:+ mission +:+ " not found") ;;
        main_loop os ms' successful failed
      else
        r <<- execute_mission os mission ;;
        let '(success, stdout, stderr) := r in
        if success then
          _ <<- print ("SUCCESS: " +:+ mission) ;;
          _ <<- sleep 5 ;;
          main_loop os ms' (successful + 1) failed
        else
          _ <<- print ("FAILED: " +:+ mission) ;;
          _ <<- print ("Error: " +:+ format_opt stderr) ;;
          _ <<- sleep 5 ;;
          main_loop os ms' successful (failed + 1)
  end.

Definition summary_line (successful failed : nat) : string :=
  newline +:+ "Execution complete: " +:+ pretty successful +:+ " successful, "
    +:+ pretty failed +:+ " failed".

Definition registry_argv : list string :=
  ["python"; "create_enhanced_coverage_registry.py"].

Definition main (os : OS) : IO unit :=
  counts <<- main_loop os missions 0 0 ;;
  _ <<- print (summary_line counts.1 counts.2) ;;
  _ <<- subprocess_run os registry_argv false ;;
  io_ret tt.

(** Readings of a trace, for the statements. *)
Definition paths_checked (tr : list event) : list string :=
  flat_map (λ ev, match ev with PathExists path _ => [path] | _ => [] end) tr.

Definition paths_found (tr : list event) : list string :=
  flat_map (λ ev, match ev with PathExists path true => [path] | _ => [] end) tr.

Definition paths_missing (tr : list event) : list string :=
  flat_map (λ ev, match ev with PathExists path false => [path] | _ => [] end) tr.

Definition commands (tr : list event) : list (list string) :=
  flat_map (λ ev, match ev with SubprocessRun argv _ _ => [argv] | _ => [] end) tr.

Definition exit_codes (tr : list event) : list Z :=
  flat_map (λ ev, match ev with
                  | SubprocessRun _ true (Returned result) => [returncode result]
                  | _ => []
                  end) tr.

Fixpoint seconds_slept (tr : list event) : nat :=
  match tr with
  | [] => 0
  | Sleep seconds :: tr' => seconds + seconds_slept tr'
  | _ :: tr' => seconds_slept tr'
  end.

Definition lines_printed (tr : list event) : list string :=
  flat_map (λ ev, match ev with Print line => [line] | _ => [] end) tr.

(** A line that does not start with a line feed; the summary line does. *)
Definition loop_line (line : string) : Prop := String.prefix newline line = false.

End CoverageMissions.

(** Two machines for [main]. *)
Module CoverageExamples.

Import CoverageMissions.

Definition mission_001 : string :=
  "missions/coverage/coverage_mission_001_src_core_chain.yaml".
Definition mission_002 : string :=
  "missions/coverage/coverage_mission_002_src_llm_azure_openai_provider.yaml".

(** Only the first two mission files exist; the first mission exits with
    code 0 and every other command with code 101. *)
Definition two_found : OS :=
  {| os_path_exists := λ _ path,
       String.eqb path mission_001 || String.eqb path mission_002;
     os_subprocess_run := λ _ argv capture_output,
       Returned
         (if bool_decide (argv = cargo_argv mission_001)
          then {| returncode := 0; stdout := Some "ok"; stderr := Some "" |}
          else {| returncode := 101; stdout := Some "";
                  stderr := Some "error: mission failed" |}) |}.

Definition file_not_found : Exn :=
  {| type_name := "FileNotFoundError";
     message := "[Errno 2] No such file or directory: 'cargo'";
     is_exception := true |}.

(** Every file exists and no command can be started. *)
Definition cargo_missing : OS :=
  {| os_path_exists := λ _ _, true;
     os_subprocess_run := λ _ _ _, Raised file_not_found |}.

End CoverageExamples.

(** ** [gif_demo/chat_with_shimmy.py] *)

Module Shimmy.

(** A parsed JSON document, as [response.json()] returns it. *)
#[warnings="-register-all"]
Inductive json : Type :=
| JNull
| JBool (b : bool)
| JInt (z : Z)
| JFloat (literal : string)
| JStr (s : string)
| JArr (items : list json)
| JObj (fields : gmap string json).

(** The exception classes the script tells apart: [HTTPError] is a
    [RequestException], and all of them are [Exception]s. *)
Inductive exn_class : Type :=
| HTTPError
| OtherRequestException
| KeyError
| IndexError
| TypeError
| OtherException.

Record exn : Type := { class : exn_class; detail : string }.

Definition is_request_exception (e : exn) : bool :=
  match class e with
  | HTTPError | OtherRequestException => true
  | _ => false
  end.

Definition is_http_error (e : exn) : bool :=
  match class e with
  | HTTPError => true
  | _ => false
  end.

(** What a call into the outside gives back. *)
Inductive answer (A : Type) : Type :=
| Answered (a : A)
| Failed (e : exn).
Arguments Answered {A} a.
Arguments Failed {A} e.

(** The part of a [requests.Response] that the script reads: the status,
    the text [raise_for_status] would report, and what [json()] gives. *)
Record Response : Type := {
  status_code : Z;
  error_text : string;
  json_body : answer json
}.

(** The argument of an f-string print that is not a plain string. *)
Inductive formatted : Type :=
| FmtJson (v : json)
| FmtExn (e : exn).

Inductive event : Type :=
| Print (line : string)
| PrintF (prefix : string) (arg : formatted)
| HttpGet (url : string) (timeout : nat) (reply : answer Z)
| HttpPost (url : string) (payload : json) (timeout : nat) (reply : answer Response)
| Input (prompt : string) (reply : answer string).

(** The outside: the server and the terminal.  Each answer may depend on
    all that happened before. *)
Record Outside : Type := {
  http_get : list event → string → nat → answer Z;
  http_post : list event → string → json → nat → answer Response;
  read_line : list event → string → answer string
}.

(** How a computation ends: with a value, with an exception, or with
    [sys.exit]. *)
Inductive result (A : Type) : Type :=
| Ok (a : A)
| Raise (e : exn)
| SysExit (code : Z).
Arguments Ok {A} a.
Arguments Raise {A} e.
Arguments SysExit {A} code.

Definition IO (A : Type) : Type := list event → result A * list event.

Definition io_ret {A : Type} (a : A) : IO A := λ tr, (Ok a, tr).

Definition io_bind {A B : Type} (m : IO A) (k : A → IO B) : IO B :=
  λ tr, match m tr with
        | (Ok a, tr') => k a tr'
        | (Raise e, tr') => (Raise e, tr')
        | (SysExit code, tr') => (SysExit code, tr')
        end.

Notation "x <<= m ;; k" := (io_bind m (λ x, k))
  (at level 100, m at next level, right associativity).

(** What touches nothing outside: a value, an exception. *)
Definition res_bind {A B : Type} (r : result A) (k : A → result B) : result B :=
  match r with
  | Ok a => k a
  | Raise e => Raise e
  | SysExit code => SysExit code
  end.

Notation "x <== r ;; k" := (res_bind r (λ x, k))
  (at level 100, r at next level, right associativity).

Definition io_lift {A : Type} (r : result A) : IO A := λ tr, (r, tr).

Definition sys_exit {A : Type} (code : Z) : IO A := λ tr, (SysExit code, tr).

(** [try: body except ... as e: handler(e)], where [handles] says whether
    some [except] clause matches and [handler] picks the first clause that
    does; [sys.exit] is not an [Exception] and passes through. *)
Definition io_try {A : Type} (body : IO A) (handles : exn → bool)
    (handler : exn → IO A) : IO A :=
  λ tr, match body tr with
        | (Raise e, tr') => if handles e then handler e tr' else (Raise e, tr')
        | other => other
        end.

Definition of_answer {A : Type} (a : answer A) : result A :=
  match a with
  | Answered x => Ok x
  | Failed e => Raise e
  end.

Definition print (line : string) : IO unit :=
  λ tr, (Ok tt, tr ++ [Print line]).

Definition print_f (prefix : string) (arg : formatted) : IO unit :=
  λ tr, (Ok tt, tr ++ [PrintF prefix arg]).

Definition requests_get (out : Outside) (url : string) (timeout : nat) : IO Z :=
  λ tr, let reply := http_get out tr url timeout in
        (of_answer reply, tr ++ [HttpGet url timeout reply]).

Definition requests_post (out : Outside) (url : string) (payload : json)
    (timeout : nat) : IO Response :=
  λ tr, let reply := http_post out tr url payload timeout in
        (of_answer reply, tr ++ [HttpPost url payload timeout reply]).

Definition input (out : Outside) (prompt : string) : IO string :=
  λ tr, let reply := read_line out tr prompt in
        (of_answer reply, tr ++ [Input prompt reply]).

(** [response.raise_for_status()] *)
Definition raise_for_status (response : Response) : result unit :=
  if (400 <=? status_code response)%Z && (status_code response <? 600)%Z
  then Raise {| class := HTTPError; detail := error_text response |}
  else Ok tt.

(** [response.json()] *)
Definition response_json (response : Response) : result json :=
  of_answer (json_body response).

(** The first character of a string in UTF-8: its first byte and the
    continuation bytes that follow. *)
Fixpoint continuation_bytes (s : string) : string :=
  match s with
  | String c s' =>
      if (128 <=? nat_of_ascii c) && (nat_of_ascii c <? 192)
      then String c (continuation_bytes s') else ""
  | EmptyString => ""
  end.

Definition first_char (s : string) : string :=
  match s with
  | String c s' => String c (continuation_bytes s')
  | EmptyString => ""
  end.

(** [v[key]] with a string key *)
Definition subscript_key (v : json) (key : string) : result json :=
  match v with
  | JObj fields =>
      match fields !! key with
      | Some x => Ok x
      | None => Raise {| class := KeyError; detail := "'" +:+ key +:+ "'" |}
      end
  | JArr _ =>
      Raise {| class := TypeError;
               detail := "list indices must be integers or slices, not str" |}
  | JStr _ =>
      Raise {| class := TypeError;
               detail := "string indices must be integers, not 'str'" |}
  | JNull =>
      Raise {| class := TypeError; detail := "'NoneType' object is not subscriptable" |}
  | JBool _ =>
      Raise {| class := TypeError; detail := "'bool' object is not subscriptable" |}
  | JInt _ =>
      Raise {| class := TypeError; detail := "'int' object is not subscriptable" |}
  | JFloat _ =>
      Raise {| class := TypeError; detail := "'float' object is not subscriptable" |}
  end.

(** [v[0]]: a parsed JSON object has string keys only *)
Definition subscript_zero (v : json) : result json :=
  match v with
  | JArr (x :: _) => Ok x
  | JArr [] => Raise {| class := IndexError; detail := "list index out of range" |}
  | JStr EmptyString =>
      Raise {| class := IndexError; detail := "string index out of range" |}
  | JStr s => Ok (JStr (first_char s))
  | JObj _ => Raise {| class := KeyError; detail := "0" |}
  | JNull =>
      Raise {| class := TypeError; detail := "'NoneType' object is not subscriptable" |}
  | JBool _ =>
      Raise {| class := TypeError; detail := "'bool' object is not subscriptable" |}
  | JInt _ =>
      Raise {| class := TypeError; detail := "'int' object is not subscriptable" |}
  | JFloat _ =>
      Raise {| class := TypeError; detail := "'float' object is not subscriptable" |}
  end.

Definition health_url : string := "http://localhost:11435/health".
Definition chat_url : string := "http://localhost:11435/v1/chat/completions".

Definition check_shimmy_health (out : Outside) : IO bool :=
  io_try (r <<= requests_get out health_url 2 ;;
          io_ret (Z.eqb r 200))
         is_request_exception
         (λ _, io_ret false).

Definition chat_payload (user_input : string) : json :=
  JObj (list_to_map
    [("model", JStr "llama3.2:1b");
     ("messages", JArr [JObj (list_to_map [("role", JStr "user");
                                           ("content", JStr user_input)])]);
     ("max_tokens", JInt 60)]).

Definition chat_with_llm (out : Outside) (user_input : string) : IO json :=
  response <<= requests_post out chat_url (chat_payload user_input) 15 ;;
  io_lift (_ <== raise_for_status response ;;
           body <== response_json response ;;
           choices <== subscript_key body "choices" ;;
           choice <== subscript_zero choices ;;
           message <== subscript_key choice "message" ;;
           subscript_key message "content").

(** The characters [str.strip()] removes, in UTF-8: recognises one at the
    head of a byte list and returns what follows it. *)
Definition skip_space (bytes : list nat) : option (list nat) :=
  match bytes with
  | b :: rest =>
      if ((9 <=? b) && (b <=? 13)) || ((28 <=? b) && (b <=? 32)) then Some rest
      else
        match b, rest with
        | 194, 133 :: rest' | 194, 160 :: rest' => Some rest'
        | 225, 154 :: 128 :: rest' => Some rest'
        | 226, 128 :: b3 :: rest' =>
            if ((128 <=? b3) && (b3 <=? 138)) || (b3 =? 168) || (b3 =? 169)
               || (b3 =? 175)
            then Some rest' else None
        | 226, 129 :: 159 :: rest' => Some rest'
        | 227, 128 :: 128 :: rest' => Some rest'
        | _, _ => None
        end
  | [] => None
  end.

(** [not s.strip()]: the string consists of such characters only. *)
Fixpoint all_space (fuel : nat) (bytes : list nat) : bool :=
  match bytes with
  | [] => true
  | _ =>
      match fuel with
      | O => false
      | S fuel' =>
          match skip_space bytes with
          | Some rest => all_space fuel' rest
          | None => false
          end
      end
  end.

Definition strip_is_empty (s : string) : bool :=
  let bytes := map nat_of_ascii (list_ascii_of_string s) in
  all_space (length bytes) bytes.

(** [s * n] *)
Fixpoint str_mul (s : string) (n : nat) : string :=
  match n with
  | O => ""
  | S n' => s +:+ str_mul s n'
  end.

Definition rule : string := str_mul "=" 35.

Definition run_demo (out : Outside) : IO unit :=
  _ <<= print "RustChain + Shimmy Integration Demo" ;;
  _ <<= print rule ;;
  healthy <<= check_shimmy_health out ;;
  if negb healthy then
    _ <<= print "Cannot reach Shimmy at localhost:11435" ;;
    _ <<= print "Install: github.com/Michael-A-Kuykendall/shimmy" ;;
    sys_exit 1
  else
    _ <<= print "Shimmy connection established" ;;
    user_query <<= input out (CoverageMissions.newline +:+ "Your question: ") ;;
    if strip_is_empty user_query then
      print "No input provided"
    else
      _ <<= io_try
              (llm_output <<= chat_with_llm out user_query ;;
               print_f (CoverageMissions.newline +:+ "Response: ")
                       (FmtJson llm_output))
              (λ _, true)
              (λ err, if is_http_error err
                      then print_f "HTTP error: " (FmtExn err)
                      else print_f "Unexpected error: " (FmtExn err)) ;;
      print (CoverageMissions.newline
               +:+ "[Demo orchestrated by RustChain mission engine]").

(** The replies for which [chat_with_llm] gets to the content: a status
    outside 400..599 and a body of the shape
    [{"choices": [{"message": {"content": c}}, ...]}]. *)
Definition well_formed_reply (reply : answer Response) (content : json) : Prop :=
  ∃ response body choice rest message,
    reply = Answered response
    ∧ ((status_code response < 400)%Z ∨ (600 ≤ status_code response)%Z)
    ∧ json_body response = Answered (JObj body)
    ∧ body !! "choices" = Some (JArr (JObj choice :: rest))
    ∧ choice !! "message" = Some (JObj message)
    ∧ message !! "content" = Some content.

Definition banner : list event :=
  [Print "RustChain + Shimmy Integration Demo"; Print rule].

Definition prompt : string := CoverageMissions.newline +:+ "Your question: ".

Definition footer : string :=
  CoverageMissions.newline +:+ "[Demo orchestrated by RustChain mission engine]".

(** Readings of a trace, for the statements. *)
Definition posts (tr : list event) : list (string * json) :=
  flat_map (λ ev, match ev with
                  | HttpPost url payload _ _ => [(url, payload)]
                  | _ => []
                  end) tr.

Definition inputs_read (tr : list event) : list (answer string) :=
  flat_map (λ ev, match ev with Input _ reply => [reply] | _ => [] end) tr.

Definition health_replies (tr : list event) : list (answer Z) :=
  flat_map (λ ev, match ev with HttpGet _ _ reply => [reply] | _ => [] end) tr.

End Shimmy.

(** Servers and terminals for [run_demo]. *)
Module ShimmyExamples.

Import Shimmy.

Definition good_body (text : string) : json :=
  JObj (list_to_map
    [("choices",
      JArr [JObj (list_to_map
        [("message", JObj (list_to_map [("role", JStr "assistant");
                                        ("content", JStr text)]))])])]).

(** A healthy server that answers every chat with [reply], and a user who
    types [line]. *)
Definition outside (line : string) (reply : answer Response) : Outside :=
  {| http_get := λ _ _ _, Answered 200%Z;
     http_post := λ _ _ _ _, reply;
     read_line := λ _ _, Answered line |}.

Definition ok_reply : answer Response :=
  Answered {| status_code := 200; error_text := "";
              json_body := Answered (good_body "Hello from Shimmy") |}.


End ShimmyExamples.

(** * Properties *)

(** ** Strings *)

Lemma append_empty_l (s : string) : "" +:+ s = s.
Proof. reflexivity. Qed.

Lemma append_String (a : ascii) (s t : string) :
  String a s +:+ t = String a (s +:+ t).
Proof. reflexivity. Qed.

Lemma prefix_spec (p s : string) :
  String.prefix p s = true ↔ ∃ post, s = p +:+ post.
Proof.
  revert s. induction p as [|a p IH]; intros s.
  - split; [intros _; by exists s |]. intros _. by destruct s.
  - destruct s as [|b s]; simpl.
    + split; [done | intros [post H]; discriminate H].
    + destruct (Ascii.ascii_dec a b) as [->|Hne].
      * rewrite IH. split; intros [post H]; exists post;
          rewrite append_String in *; congruence.
      * split; [done | intros [post H]; rewrite append_String in H; congruence].
Qed.

(** [str_in] decides the substring relation. *)
Lemma str_in_spec (needle hay : string) :
  str_in needle hay = true ↔ ∃ pre post, hay = pre +:+ needle +:+ post.
Proof.
  induction hay as [|c hay IH]; cbn [str_in].
  - rewrite orb_false_r, prefix_spec. split.
    + intros [post H]. by exists "", post.
    + intros [pre [post H]]. destruct pre; [by exists post | discriminate H].
  - rewrite orb_true_iff, prefix_spec, IH. split.
    + intros [[post H] | [pre [post H]]].
      * by exists "", post.
      * exists (String c pre), post. rewrite append_String. by rewrite H.
    + intros [pre [post H]]. destruct pre as [|c' pre].
      * left. by exists post.
      * right. exists pre, post. rewrite append_String in H. congruence.
Qed.

Lemma length_append (s t : string) :
  String.length (s +:+ t) = String.length s + String.length t.
Proof.
  induction s as [|a s IH]; [done|].
  rewrite append_String. simpl. by rewrite IH.
Qed.

Lemma append_inv_tail (s1 s2 t : string) : s1 +:+ t = s2 +:+ t → s1 = s2.
Proof.
  revert s2. induction s1 as [|a s1 IH]; intros [|b s2] H; [done | | |].
  - apply (f_equal String.length) in H.
    rewrite append_empty_l, length_append in H. simpl in H. lia.
  - apply (f_equal String.length) in H.
    rewrite append_empty_l, length_append in H. simpl in H. lia.
  - rewrite !append_String in H. injection H as -> H. f_equal. by apply IH.
Qed.

(** ** The validator *)

Lemma dict_in_spec {V : Type} (key : string) (d : gmap string V) :
  dict_in key d = true ↔ is_Some (d !! key).
Proof. unfold dict_in. apply bool_decide_eq_true. Qed.

Lemma list_in_spec (x : string) (l : list string) :
  list_in x l = true ↔ x ∈ l.
Proof. unfold list_in. apply bool_decide_eq_true. Qed.

Lemma all_fields_spec (fields : list string) (data : gmap string value) :
  all (λ field, dict_in field data) fields = true
  ↔ ∀ k, k ∈ fields → is_Some (data !! k).
Proof.
  unfold all. rewrite forallb_forall. split; intros H k Hk.
  - apply dict_in_spec, H. by apply list_elem_of_In.
  - apply dict_in_spec, H. by apply list_elem_of_In.
Qed.

Section ValidateFacts.

Variables (self : ECC.t) (data : gmap string value) (c : Clock).

Let r := ECC.report_of self data c.

Ltac run_blocks :=
  subst r; unfold ECC.report_of, ECC.validate, ECC.check_sox, ECC.check_gdpr,
    ECC.check_hipaa, block_violations, block_status; cbn [utcnow fst snd];
  destruct (list_in "SOX" (ECC.standards self)),
           (ECC._validate_sox_compliance data),
           (list_in "GDPR" (ECC.standards self)),
           (ECC._validate_gdpr_compliance data),
           (list_in "HIPAA" (ECC.standards self)),
           (ECC._validate_hipaa_compliance data); reflexivity.

Lemma validate_violations :
  ECC.violations r =
    block_violations "SOX" (ECC._validate_sox_compliance data) self ++
    block_violations "GDPR" (ECC._validate_gdpr_compliance data) self ++
    block_violations "HIPAA" (ECC._validate_hipaa_compliance data) self.
Proof. run_blocks. Qed.

Lemma validate_compliance_status : ECC.compliance_status r = "PASSED".
Proof. run_blocks. Qed.

Lemma validate_sox_status :
  ECC.sox_status r = block_status "SOX" (ECC._validate_sox_compliance data) self.
Proof. run_blocks. Qed.

Lemma validate_gdpr_status :
  ECC.gdpr_status r = block_status "GDPR" (ECC._validate_gdpr_compliance data) self.
Proof. run_blocks. Qed.

Lemma validate_hipaa_status :
  ECC.hipaa_status r = block_status "HIPAA" (ECC._validate_hipaa_compliance data) self.
Proof. run_blocks. Qed.

Lemma validate_standards_checked : ECC.standards_checked r = ECC.standards self.
Proof. run_blocks. Qed.

Lemma validate_self_after :
  ECC.self_after self data c =
    {| ECC.standards := ECC.standards self;
       ECC.audit_trail := ECC.audit_trail self ++ [r] |}.
Proof. reflexivity. Qed.

Lemma validate_clock_after :
  (ECC.validate self data c).2 =
    {| reading := reading c; ticks := S (S (ticks c)) |}.
Proof. reflexivity. Qed.

End ValidateFacts.

Lemma block_violations_nil (standard : string) (ok : bool) (self : ECC.t) :
  (standard ∈ ECC.standards self → ok = true) →
  block_violations standard ok self = [].
Proof.
  intros H. unfold block_violations.
  destruct (list_in standard (ECC.standards self)) eqn:E; [|done].
  apply list_in_spec in E. by rewrite (H E).
Qed.

Lemma block_violations_one (standard : string) (ok : bool) (self : ECC.t) :
  standard ∈ ECC.standards self → ok = false →
  block_violations standard ok self = [ECC.violation_entry standard].
Proof.
  intros Hin ->. unfold block_violations.
  apply list_in_spec in Hin. by rewrite Hin.
Qed.

Lemma block_status_none (standard : string) (ok : bool) (self : ECC.t) :
  standard ∉ ECC.standards self → block_status standard ok self = None.
Proof.
  intros H. unfold block_status.
  destruct (list_in standard (ECC.standards self)) eqn:E; [|done].
  by apply list_in_spec in E.
Qed.

(** C1, as the code runs it: with [standards = ["SOX"]] and an empty context
    the report lists one violation, so SOX failed, and its
    [compliance_status] is nevertheless ["PASSED"]: a non-empty [violations]
    list next to a status that is PASSED. *)
Theorem validate_passed_with_violations :
  ECC.violations (ECC.report_of Examples.sox_only ∅ Examples.clock0)
    = ["SOX violation detected"]
  ∧ ECC.compliance_status (ECC.report_of Examples.sox_only ∅ Examples.clock0)
    = "PASSED".
Proof. split; reflexivity. Qed.

(** C2, as the code runs it: with [standards = ["GDPR"]] and a context that
    lacks [consent_status] the violations are exactly
    [["GDPR violation detected"]], no [gdpr_status] is stored, and
    [compliance_status] is ["PASSED"], not ["FAILED"]. *)
Theorem validate_gdpr_missing_consent :
  Examples.no_consent_context !! "consent_status" = None
  ∧ ECC.violations (ECC.report_of Examples.gdpr_only Examples.no_consent_context
                                  Examples.clock0)
    = ["GDPR violation detected"]
  ∧ ECC.gdpr_status (ECC.report_of Examples.gdpr_only Examples.no_consent_context
                                   Examples.clock0)
    = None
  ∧ ECC.compliance_status (ECC.report_of Examples.gdpr_only
                                         Examples.no_consent_context Examples.clock0)
    = "PASSED"
  ∧ ECC.compliance_status (ECC.report_of Examples.gdpr_only
                                         Examples.no_consent_context Examples.clock0)
    ≠ "FAILED".
Proof. repeat split; try reflexivity. vm_compute. discriminate. Qed.

(** C3: when the context holds every key that every configured standard
    requires, the report has [compliance_status = "PASSED"] and no
    violations. *)
Theorem validate_all_keys_present (self : ECC.t) (data : gmap string value)
    (c : Clock) :
  (∀ standard, standard ∈ ECC.standards self →
     ∀ k, k ∈ ECC.required_keys standard → is_Some (data !! k)) →
  ECC.compliance_status (ECC.report_of self data c) = "PASSED"
  ∧ ECC.violations (ECC.report_of self data c) = [].
Proof.
  intros Hkeys. split; [apply validate_compliance_status|].
  rewrite validate_violations.
  rewrite !block_violations_nil; [done | | |]; intros Hin;
    apply all_fields_spec; exact (Hkeys _ Hin).
Qed.

(** The scenario of C3: [standards = ["SOX"]] and a context with
    [data_classification], [access_controls] and [audit_trail]. *)
Lemma validate_all_keys_present_sox :
  ECC.compliance_status
    (ECC.report_of Examples.sox_only Examples.sox_context Examples.clock0) = "PASSED"
  ∧ ECC.violations
    (ECC.report_of Examples.sox_only Examples.sox_context Examples.clock0) = [].
Proof.
  apply (validate_all_keys_present Examples.sox_only Examples.sox_context
                                   Examples.clock0).
  intros standard Hin k Hk.
  apply list_elem_of_singleton in Hin. subst standard.
  revert k Hk. apply Forall_forall.
  repeat constructor; vm_compute; eauto.
Defined.

(** Which entries [violations] holds: the entry of a configured standard
    among SOX, GDPR and HIPAA exactly when its check fails, and no entry
    twice. *)
Lemma violation_entry_inj (s1 s2 : string) :
  ECC.violation_entry s1 = ECC.violation_entry s2 → s1 = s2.
Proof. apply append_inv_tail. Qed.

Lemma block_violations_elem (entry standard : string) (ok : bool) (self : ECC.t) :
  entry ∈ block_violations standard ok self
  ↔ entry = ECC.violation_entry standard
    ∧ standard ∈ ECC.standards self ∧ ok = false.
Proof.
  unfold block_violations.
  destruct (list_in standard (ECC.standards self)) eqn:E.
  - apply list_in_spec in E. destruct ok; simpl.
    + rewrite elem_of_nil. split; [done | by intros (_ & _ & ?)].
    + rewrite list_elem_of_singleton. split; [by intros -> | by intros (? & _)].
  - assert (standard ∉ ECC.standards self) as Hnot.
    { intros Hin%list_in_spec. congruence. }
    simpl. rewrite elem_of_nil. split; [done | by intros (_ & ? & _)].
Qed.

Lemma validate_violations_elem (self : ECC.t) (data : gmap string value)
    (c : Clock) (entry : string) :
  entry ∈ ECC.violations (ECC.report_of self data c)
  ↔ (entry = "SOX violation detected" ∧ "SOX" ∈ ECC.standards self
       ∧ ECC._validate_sox_compliance data = false)
    ∨ (entry = "GDPR violation detected" ∧ "GDPR" ∈ ECC.standards self
       ∧ ECC._validate_gdpr_compliance data = false)
    ∨ (entry = "HIPAA violation detected" ∧ "HIPAA" ∈ ECC.standards self
       ∧ ECC._validate_hipaa_compliance data = false).
Proof.
  rewrite validate_violations, !elem_of_app, !block_violations_elem.
  reflexivity.
Qed.

Lemma validate_violations_NoDup (self : ECC.t) (data : gmap string value)
    (c : Clock) :
  NoDup (ECC.violations (ECC.report_of self data c)).
Proof.
  rewrite validate_violations. unfold block_violations.
  destruct (list_in "SOX" (ECC.standards self)),
           (ECC._validate_sox_compliance data),
           (list_in "GDPR" (ECC.standards self)),
           (ECC._validate_gdpr_compliance data),
           (list_in "HIPAA" (ECC.standards self)),
           (ECC._validate_hipaa_compliance data);
    apply (bool_decide_unpack _); vm_compute; reflexivity.
Qed.

(** C9, as amended: each [_validate_*] method accepts a context exactly when
    all of its three keys are in the context's key set; the values bound to
    the keys are not looked at. *)
Theorem key_presence_alone_counts (data : gmap string value) :
  (ECC._validate_sox_compliance data = true
     ↔ ∀ k, k ∈ ECC.required_fields → k ∈ dom data)
  ∧ (ECC._validate_gdpr_compliance data = true
     ↔ ∀ k, k ∈ ECC.privacy_fields → k ∈ dom data)
  ∧ (ECC._validate_hipaa_compliance data = true
     ↔ ∀ k, k ∈ ECC.hipaa_fields → k ∈ dom data).
Proof.
  unfold ECC._validate_sox_compliance, ECC._validate_gdpr_compliance,
    ECC._validate_hipaa_compliance.
  rewrite !all_fields_spec.
  repeat split; intros H k Hk.
  all: by apply elem_of_dom, H.
Qed.

(** Two contexts with the same keys get the same report. *)
Lemma validate_depends_on_keys_only (self : ECC.t) (data data' : gmap string value)
    (c : Clock) :
  dom data = dom data' →
  ECC.report_of self data c = ECC.report_of self data' c.
Proof.
  intros Hdom.
  assert (Hall : ∀ fields, all (λ field, dict_in field data) fields
                         = all (λ field, dict_in field data') fields).
  { intros fields. unfold all.
    induction fields as [|k fields IH]; [done|]. cbn [forallb].
    rewrite IH. f_equal. unfold dict_in. apply bool_decide_ext.
    by rewrite <- !elem_of_dom, Hdom. }
  unfold ECC.report_of, ECC.validate, ECC.check_sox, ECC.check_gdpr,
    ECC.check_hipaa, ECC._validate_sox_compliance, ECC._validate_gdpr_compliance,
    ECC._validate_hipaa_compliance.
  by rewrite !Hall.
Qed.

(** C9, the claim as stated fails: every SOX key is bound to the empty
    string, a falsy value, and the SOX predicate is satisfied; the report
    marks SOX compliant and has no violation. *)
Lemma empty_values_satisfy_sox :
  Examples.sox_context_empty_values !! "data_classification" = Some (VStr "")
  ∧ truthy (VStr "") = false
  ∧ ECC._validate_sox_compliance Examples.sox_context_empty_values = true
  ∧ ECC.sox_status (ECC.report_of Examples.sox_only
                      Examples.sox_context_empty_values Examples.clock0)
    = Some "COMPLIANT"
  ∧ ECC.violations (ECC.report_of Examples.sox_only
                      Examples.sox_context_empty_values Examples.clock0)
    = [].
Proof. repeat split; reflexivity. Qed.

(** A configured standard among the three whose context lacks one of its
    keys is named by one entry of [violations], and gets no status key. *)
Lemma missing_key_violation (self : ECC.t) (data : gmap string value)
    (c : Clock) (standard k : string) :
  standard ∈ ["SOX"; "GDPR"; "HIPAA"] →
  standard ∈ ECC.standards self →
  k ∈ ECC.required_keys standard → data !! k = None →
  ECC.violation_entry standard ∈ ECC.violations (ECC.report_of self data c)
  ∧ NoDup (ECC.violations (ECC.report_of self data c))
  ∧ ECC.status_of standard (ECC.report_of self data c) = None.
Proof.
  intros Hthree Hin Hk Hnone.
  assert (all (λ field, dict_in field data) (ECC.required_keys standard) = false)
    as Hfail.
  { apply not_true_is_false. intros Hall.
    destruct (proj1 (all_fields_spec _ _) Hall k Hk) as [v Hv]. congruence. }
  split; [|split; [apply validate_violations_NoDup|]].
  - apply validate_violations_elem.
    rewrite !elem_of_cons, elem_of_nil in Hthree.
    destruct Hthree as [-> | [-> | [-> | []]]]; eauto 10.
  - rewrite !elem_of_cons, elem_of_nil in Hthree.
    destruct Hthree as [-> | [-> | [-> | []]]]; cbn [ECC.status_of String.eqb];
      simpl; rewrite ?validate_sox_status, ?validate_gdpr_status,
        ?validate_hipaa_status; unfold block_status;
      [unfold ECC._validate_sox_compliance
      |unfold ECC._validate_gdpr_compliance
      |unfold ECC._validate_hipaa_compliance];
      change ECC.required_fields with (ECC.required_keys "SOX");
      change ECC.privacy_fields with (ECC.required_keys "GDPR");
      change ECC.hipaa_fields with (ECC.required_keys "HIPAA");
      rewrite Hfail; by rewrite andb_false_r.
Qed.

(** C10: a standard other than SOX, GDPR and HIPAA is not checked.  Its
    entry never occurs in [violations] and it has no status key; a validator
    configured with such standards only reports no violation and stores no
    status at all; and ["PCI_DSS"], which the default list contains, is such
    a standard. *)
Theorem unchecked_standards_contribute_nothing (self : ECC.t)
    (data : gmap string value) (c : Clock) :
  (∀ standard, standard ∉ ["SOX"; "GDPR"; "HIPAA"] →
     (ECC.violation_entry standard ∉ ECC.violations (ECC.report_of self data c))
     ∧ ECC.status_of standard (ECC.report_of self data c) = None)
  ∧ ((∀ standard, standard ∈ ECC.standards self →
        standard ∉ ["SOX"; "GDPR"; "HIPAA"]) →
     ECC.violations (ECC.report_of self data c) = []
     ∧ ECC.sox_status (ECC.report_of self data c) = None
     ∧ ECC.gdpr_status (ECC.report_of self data c) = None
     ∧ ECC.hipaa_status (ECC.report_of self data c) = None)
  ∧ "PCI_DSS" ∈ ECC.standards (ECC.init None)
  ∧ "PCI_DSS" ∉ ["SOX"; "GDPR"; "HIPAA"].
Proof.
  split; [|split; [|split]].
  - intros standard Hnot. split.
    + intros Hin. apply validate_violations_elem in Hin.
      apply Hnot.
      destruct Hin as [(He & _) | [(He & _) | (He & _)]];
        [apply (violation_entry_inj standard "SOX") in He
        |apply (violation_entry_inj standard "GDPR") in He
        |apply (violation_entry_inj standard "HIPAA") in He];
        subst standard; set_solver.
    + unfold ECC.status_of.
      destruct (String.eqb_spec standard "SOX") as [->|_]; [set_solver|].
      destruct (String.eqb_spec standard "GDPR") as [->|_]; [set_solver|].
      destruct (String.eqb_spec standard "HIPAA") as [->|_]; [set_solver|].
      reflexivity.
  - intros Honly.
    assert (∀ standard, standard ∈ ["SOX"; "GDPR"; "HIPAA"] →
                        standard ∉ ECC.standards self) as Hout.
    { intros standard Hthree Hin. by apply (Honly standard). }
    rewrite validate_violations, validate_sox_status, validate_gdpr_status,
      validate_hipaa_status.
    rewrite !block_violations_nil, !block_status_none;
      [done | ..]; try (apply Hout; set_solver);
      intros Hin; exfalso; revert Hin; apply Hout; set_solver.
  - apply (bool_decide_unpack _). vm_compute. reflexivity.
  - apply (bool_decide_unpack _). vm_compute. reflexivity.
Qed.

(** C10 run on [standards = ["PCI_DSS"]] and the empty context. *)
Lemma unchecked_standards_pci_only :
  ECC.violations (ECC.report_of Examples.pci_only ∅ Examples.clock0) = []
  ∧ ECC.sox_status (ECC.report_of Examples.pci_only ∅ Examples.clock0) = None
  ∧ ECC.gdpr_status (ECC.report_of Examples.pci_only ∅ Examples.clock0) = None
  ∧ ECC.hipaa_status (ECC.report_of Examples.pci_only ∅ Examples.clock0) = None.
Proof.
  apply (unchecked_standards_contribute_nothing Examples.pci_only ∅ Examples.clock0).
  intros standard Hin. apply list_elem_of_singleton in Hin. subst standard.
  apply (bool_decide_unpack _). vm_compute. reflexivity.
Defined.

(** C7, the claim as stated fails: a call on a fresh validator leaves one
    entry in the validator's own [audit_trail], which was empty before. *)
Lemma validate_changes_audit_trail :
  ECC.audit_trail Examples.all_defaults = []
  ∧ length (ECC.audit_trail (ECC.self_after Examples.all_defaults ∅ Examples.clock0))
    = 1
  ∧ ECC.audit_trail (ECC.self_after Examples.all_defaults ∅ Examples.clock0)
    ≠ ECC.audit_trail Examples.all_defaults.
Proof. repeat split; try reflexivity. vm_compute. discriminate. Qed.

(** C7, as amended: [validate] has one effect on the validator, it appends
    the report it returns at the end of the validator's [audit_trail]: the
    trail is one entry longer, its last entry is the returned report, the
    entries already there keep their positions, and [standards] is
    unchanged. *)
Theorem validate_appends_report (self : ECC.t) (data : gmap string value)
    (c : Clock) :
  ECC.audit_trail (ECC.self_after self data c)
    = ECC.audit_trail self ++ [ECC.report_of self data c]
  ∧ length (ECC.audit_trail (ECC.self_after self data c))
    = S (length (ECC.audit_trail self))
  ∧ last (ECC.audit_trail (ECC.self_after self data c))
    = Some (ECC.report_of self data c)
  ∧ (∀ i r, ECC.audit_trail self !! i = Some r →
            ECC.audit_trail (ECC.self_after self data c) !! i = Some r)
  ∧ ECC.standards (ECC.self_after self data c) = ECC.standards self.
Proof.
  rewrite validate_self_after. cbn [ECC.audit_trail ECC.standards].
  split; [done|]. split; [rewrite length_app; simpl; lia|].
  split; [apply last_snoc|]. split; [|done].
  intros i r Hi. by apply lookup_app_l_Some.
Qed.

(** ** The notification chain *)

Lemma str_truthy_spec (o : option string) :
  str_truthy o = true ↔ ∃ key, o = Some key ∧ key ≠ "".
Proof.
  destruct o as [s|]; simpl.
  - rewrite negb_true_iff. split.
    + intros H. exists s. split; [done|]. intros ->. discriminate H.
    + intros (key & [= <-] & Hne). by apply String.eqb_neq.
  - split; [done | by intros (key & ? & _)].
Qed.

Lemma severity_is_critical_spec (d : gmap string value) :
  ENC.severity_is_critical d = true ↔ d !! "severity" = Some (VStr "critical").
Proof.
  unfold ENC.severity_is_critical.
  destruct (d !! "severity") as [[| | |s]|]; try (split; [done | congruence]).
  rewrite String.eqb_eq. split; congruence.
Qed.

(** C4: [notify_failure] lists the paging channel exactly when a non-empty
    integration key is set and the detail's severity is ["critical"]; with
    severity ["high"] it never does, whatever the configuration. *)
Theorem notify_failure_pages_iff_critical (self : ENC.t) (d : gmap string value) :
  ("pagerduty" ∈ ENC.notifications_sent (ENC.notify_failure self d)
     ↔ (∃ key, ENC.pagerduty_key self = Some key ∧ key ≠ "")
       ∧ d !! "severity" = Some (VStr "critical"))
  ∧ (d !! "severity" = Some (VStr "high") →
     "pagerduty" ∉ ENC.notifications_sent (ENC.notify_failure self d)).
Proof.
  assert ("pagerduty" ∈ ENC.notifications_sent (ENC.notify_failure self d)
          ↔ str_truthy (ENC.pagerduty_key self) && ENC.severity_is_critical d = true)
    as Hsent.
  { unfold ENC.notify_failure. cbn [ENC.notifications_sent].
    destruct (str_truthy (ENC.pagerduty_key self) && ENC.severity_is_critical d).
    - split; [done|]. intros _. apply list_elem_of_singleton. reflexivity.
    - split; [|done]. intros H. by apply elem_of_nil in H. }
  split.
  - by rewrite Hsent, andb_true_iff, str_truthy_spec, severity_is_critical_spec.
  - intros Hhigh Hin. apply Hsent, andb_true_iff in Hin as [_ Hcrit].
    apply severity_is_critical_spec in Hcrit. congruence.
Qed.

(** C4 run with a paging key set and severity ["high"]. *)
Lemma notify_failure_high_not_paged :
  "pagerduty" ∉ ENC.notifications_sent
    (ENC.notify_failure {| ENC.slack_webhook := None;
                           ENC.pagerduty_key := Some "pd-key" |}
                        {["severity" := VStr "high"]}).
Proof.
  apply (proj2 (notify_failure_pages_iff_critical
                  {| ENC.slack_webhook := None; ENC.pagerduty_key := Some "pd-key" |}
                  {["severity" := VStr "high"]})).
  reflexivity.
Defined.

(** With the key set and severity ["critical"] the page goes out. *)
Example notify_failure_critical_paged :
  ENC.notifications_sent
    (ENC.notify_failure {| ENC.slack_webhook := None;
                           ENC.pagerduty_key := Some "pd-key" |}
                        {["severity" := VStr "critical"]})
  = ["pagerduty"].
Proof. reflexivity. Qed.

(** ** The top-level run *)

Section RunFacts.

Variable enterprise_ml_pipeline : gmap string value → Outcome (gmap string value).
Variable format_elapsed : datetime → datetime → string.
Variables dataset_id compliance_level analysis_type : string.
Variable w : World.

(** The first clock read of the run and the input built from it. *)
Local Abbreviation start := (reading (clock w) (ticks (clock w))).
Local Abbreviation input :=
  (make_pipeline_input dataset_id compliance_level analysis_type start).
Local Abbreviation run :=
  (run_enterprise_pipeline enterprise_ml_pipeline format_elapsed
     dataset_id compliance_level analysis_type w).

Lemma input_execution_id :
  input !! "execution_id" = Some (VStr ("exec_" +:+ strftime_Ymd_HMS start)).
Proof. reflexivity. Qed.

Local Abbreviation run_with :=
  (λ notify, run_enterprise_pipeline_with enterprise_ml_pipeline format_elapsed
               notify dataset_id compliance_level analysis_type w).

(** The world after [n] clock reads and nothing else. *)
Local Abbreviation after_reads n :=
  {| compliance_validator := compliance_validator w;
     notification_system := notification_system w;
     clock := {| reading := reading (clock w); ticks := n + ticks (clock w) |} |}.

(** The run when the chain raises.  For an [Exception] the [except] block
    reads the clock once more and touches nothing else; any other
    exception leaves the function after the one read at the start. *)
Lemma run_chain_raised (e : Exn) :
  enterprise_ml_pipeline input = Raised e →
  run =
    if is_exception e
    then (Returned (Failure
            {| failure_status := "FAILURE";
               error_details :=
                 make_error_details e input
                   (reading (clock w) (S (ticks (clock w))));
               failure_compliance_status := "UNKNOWN" |}),
          after_reads 2)
    else (Raised e, after_reads 1).
Proof.
  intros Hraise.
  cbv beta iota zeta delta
    [run_enterprise_pipeline bind now try_block call_pipeline utcnow
     Pipeline.clock Datetime.reading Datetime.ticks].
  destruct w as [validator notifier [rd tk]].
  cbv beta iota zeta delta [Pipeline.clock Datetime.reading Datetime.ticks] in *.
  rewrite Hraise.
  by destruct (is_exception e).
Qed.

Lemma run_chain_caught (e : Exn) :
  enterprise_ml_pipeline input = Raised e →
  is_exception e = true →
  run =
    (Returned (Failure
       {| failure_status := "FAILURE";
          error_details :=
            make_error_details e input (reading (clock w) (S (ticks (clock w))));
          failure_compliance_status := "UNKNOWN" |}),
     after_reads 2).
Proof. intros Hraise Hexc. by rewrite (run_chain_raised e Hraise), Hexc. Qed.

Lemma run_chain_escaped (e : Exn) :
  enterprise_ml_pipeline input = Raised e →
  is_exception e = false →
  run = (Raised e, after_reads 1).
Proof. intros Hraise Hexc. by rewrite (run_chain_raised e Hraise), Hexc. Qed.

(** The run when the chain returns. *)
Lemma run_chain_returned (out : gmap string value) :
  enterprise_ml_pipeline input = Returned out →
  let c1 := {| reading := reading (clock w); ticks := S (ticks (clock w)) |} in
  let report := ECC.report_of (compliance_validator w) input c1 in
  let finish := reading (clock w) (S (S (S (ticks (clock w))))) in
  run =
    (Returned (Success
       {| status := "SUCCESS";
          execution_id := VStr ("exec_" +:+ strftime_Ymd_HMS start);
          processing_time := format_elapsed start finish +:+ " seconds";
          records_processed := "1,000,000+ records";
          compliance_status := ECC.compliance_status report;
          final_performance_metrics := performance_metrics;
          pipeline_output := out;
          compliance_report := report;
          audit_trail_id := ECC.audit_id report;
          notification_status :=
            Some {| ENC.notifications_sent :=
                      if str_truthy (ENC.slack_webhook (notification_system w))
                      then ["slack"] else [];
                    ENC.status := "success" |} |}),
     {| compliance_validator := ECC.self_after (compliance_validator w) input c1;
        notification_system := notification_system w;
        clock := {| reading := reading (clock w);
                    ticks := S (S (S (S (ticks (clock w))))) |} |}).
Proof.
  intros Hret.
  cbv beta iota zeta delta
    [run_enterprise_pipeline bind now try_block call_pipeline utcnow
     Pipeline.clock Datetime.reading Datetime.ticks].
  destruct w as [validator notifier [rd tk]].
  cbv beta iota zeta delta [Pipeline.clock Datetime.reading Datetime.ticks] in *.
  rewrite Hret.
  reflexivity.
Qed.

(** Once entered, the [except] block returns a FAILURE result and leaves
    the validator alone. *)
Lemma except_block_failure (e : Exn) (pipeline_input : gmap string value)
    (w0 : World) :
  ∃ f w', except_block e pipeline_input w0 = (Returned f, w')
          ∧ failure_status f = "FAILURE"
          ∧ compliance_validator w' = compliance_validator w0.
Proof. by eexists _, _. Qed.

(** The method of this file put for the open one gives the run back. *)
Lemma run_with_notify_success_method : run_with notify_success_method = run.
Proof. reflexivity. Qed.


(** A FAILURE result comes from an [Exception] of the chain. *)
Lemma run_failure_inv (f : FailureResult) :
  run.1 = Returned (Failure f) →
  ∃ e, enterprise_ml_pipeline input = Raised e ∧ is_exception e = true.
Proof.
  destruct (enterprise_ml_pipeline input) as [out|e] eqn:Hchain.
  - rewrite (run_chain_returned out Hchain). discriminate.
  - rewrite (run_chain_raised e Hchain).
    destruct (is_exception e) eqn:Hexc; [by exists e | discriminate].
Qed.

(** An exception leaves the run only when the chain raised it and it is
    not an [Exception]. *)
Lemma run_raised_inv (e : Exn) :
  run.1 = Raised e →
  enterprise_ml_pipeline input = Raised e ∧ is_exception e = false.
Proof.
  destruct (enterprise_ml_pipeline input) as [out|e'] eqn:Hchain.
  - rewrite (run_chain_returned out Hchain). discriminate.
  - rewrite (run_chain_raised e' Hchain).
    destruct (is_exception e') eqn:Hexc; [discriminate|].
    by intros [= <-].
Qed.

(** The severity entry of the details built from [e]. *)
Lemma severity_entry_spec (e : Exn) (pipeline_input : gmap string value)
    (timestamp : datetime) :
  let details := make_error_details e pipeline_input timestamp in
  (details !! "severity" = Some (VStr "critical")
   ↔ ∃ pre post, lower (message e) = pre +:+ "authentication" +:+ post)
  ∧ (details !! "severity" = Some (VStr "high")
     ↔ ¬ ∃ pre post, lower (message e) = pre +:+ "authentication" +:+ post).
Proof.
  intros details.
  assert (details !! "severity" = Some (VStr (severity_of e))) as ->
    by reflexivity.
  rewrite <- str_in_spec. unfold severity_of.
  destruct (str_in "authentication" (lower (message e))).
  - split; [split; done | split; [intros [=] | intros H; by destruct H]].
  - split; [split; [intros [=] | discriminate] | split; [by intros _ | done]].
Qed.

(** C5: when the chain raises [e], the [except Exception] block runs exactly
    when [e] is an [Exception].  The run then returns a FAILURE result whose
    [error_details] carry [str(e)] and a severity that is ["critical"]
    exactly when ["authentication"] is a substring of the lowercased
    message, and ["high"] exactly when it is not; so the message
    ["authentication token expired"] gives ["critical"] and
    ["downstream timeout"] gives ["high"].  An exception outside
    [Exception] ([KeyboardInterrupt], [SystemExit]) leaves the function as
    it is and no details are built for it. *)
Theorem failure_severity_classification (e : Exn) :
  enterprise_ml_pipeline input = Raised e →
  (is_exception e = true →
   ∃ f, run.1 = Returned (Failure f)
     ∧ error_details f !! "error_message" = Some (VStr (message e))
     ∧ (error_details f !! "severity" = Some (VStr "critical")
        ↔ ∃ pre post, lower (message e) = pre +:+ "authentication" +:+ post)
     ∧ (error_details f !! "severity" = Some (VStr "high")
        ↔ ¬ ∃ pre post, lower (message e) = pre +:+ "authentication" +:+ post)
     ∧ (message e = "authentication token expired" →
        error_details f !! "severity" = Some (VStr "critical"))
     ∧ (message e = "downstream timeout" →
        error_details f !! "severity" = Some (VStr "high")))
  ∧ (is_exception e = false →
     run.1 = Raised e ∧ ∀ r, run.1 ≠ Returned r).
Proof.
  intros Hchain. split; intros Hexc.
  - rewrite (run_chain_caught e Hchain Hexc).
    eexists. split; [reflexivity|]. cbn [error_details].
    split; [reflexivity|].
    split; [apply severity_entry_spec|].
    split; [apply severity_entry_spec|].
    split; intros Hmsg.
    + assert (make_error_details e input
                (reading (clock w) (S (ticks (clock w)))) !! "severity"
              = Some (VStr (severity_of e))) as -> by reflexivity.
      unfold severity_of. by rewrite Hmsg.
    + assert (make_error_details e input
                (reading (clock w) (S (ticks (clock w)))) !! "severity"
              = Some (VStr (severity_of e))) as -> by reflexivity.
      unfold severity_of. by rewrite Hmsg.
  - rewrite (run_chain_escaped e Hchain Hexc). by split.
Qed.

(** C6: when the chain raises, whatever it raises, the validator, its
    audit trail included, is as it was before the run, and a result, if
    one is returned, carries no compliance report.  Apart from that: for
    an [Exception] the run returns a FAILURE result and the clock was read
    twice, at the start and in the [except] block; for any other exception
    the run raises it and the clock was read once.  Either way the two
    reads of [validate] did not happen. *)
Theorem failed_run_not_validated (e : Exn) :
  enterprise_ml_pipeline input = Raised e →
  (compliance_validator run.2 = compliance_validator w
   ∧ ECC.audit_trail (compliance_validator run.2)
     = ECC.audit_trail (compliance_validator w)
   ∧ (∀ r, run.1 = Returned r → result_compliance_report r = None)
   ∧ ticks (clock run.2) < 3 + ticks (clock w))
  ∧ (is_exception e = true →
     ∃ r, run.1 = Returned r
       ∧ result_status r = "FAILURE"
       ∧ result_compliance_report r = None
       ∧ ticks (clock run.2) = S (S (ticks (clock w))))
  ∧ (is_exception e = false →
     run.1 = Raised e
     ∧ ticks (clock run.2) = S (ticks (clock w))).
Proof.
  intros Hchain. rewrite (run_chain_raised e Hchain).
  destruct (is_exception e); cbn [fst snd].
  - split; [|split; [intros _ | discriminate]].
    + repeat split; cbn; [|lia]. by intros r [= <-].
    + eexists. repeat split.
  - split; [|split; [discriminate | intros _; by split]].
    repeat split; cbn; [|lia]. discriminate.
Qed.

(** The audit trail grows only in a run whose chain returned, and then by
    the one report that the result carries. *)
Lemma audit_trail_grows_on_success :
  ECC.audit_trail (compliance_validator run.2)
    ≠ ECC.audit_trail (compliance_validator w) →
  ∃ out r, enterprise_ml_pipeline input = Returned out
    ∧ run.1 = Returned (Success r)
    ∧ ECC.audit_trail (compliance_validator run.2)
      = ECC.audit_trail (compliance_validator w) ++ [compliance_report r].
Proof.
  destruct (enterprise_ml_pipeline input) as [out|e] eqn:Hchain.
  - rewrite (run_chain_returned out Hchain). intros _.
    eexists _, _. repeat split.
  - rewrite (run_chain_raised e Hchain).
    destruct (is_exception e); intros Hne; by destruct Hne.
Qed.


End RunFacts.

(** C5 run on three exceptions: the message
    ["authentication token expired"] and one with the needle in capitals
    give ["critical"]; [sys.exit("authentication failed")] is not an
    [Exception] and leaves the run without any details. *)
Lemma severity_authentication_token_expired :
  (∃ f, (RunExamples.run (RunExamples.chain_raising RunExamples.auth_error)
                         RunExamples.wired_world).1 = Returned (Failure f)
     ∧ error_details f !! "severity" = Some (VStr "critical"))
  ∧ (∃ f, (RunExamples.run (RunExamples.chain_raising RunExamples.oauth_error)
                           RunExamples.wired_world).1 = Returned (Failure f)
       ∧ error_details f !! "severity" = Some (VStr "critical"))
  ∧ (RunExamples.run (RunExamples.chain_raising RunExamples.system_exit)
                     RunExamples.wired_world).1
    = Raised RunExamples.system_exit.
Proof.
  split; [|split].
  - destruct (failure_severity_classification
                (RunExamples.chain_raising RunExamples.auth_error)
                RunExamples.format_elapsed
                "enterprise_demo" "all" "investment_analysis"
                RunExamples.wired_world RunExamples.auth_error eq_refl)
      as [Hcaught _].
    destruct (Hcaught eq_refl) as (f & Hrun & _ & _ & _ & Hscenario & _).
    exists f. split; [exact Hrun|]. by apply Hscenario.
  - destruct (failure_severity_classification
                (RunExamples.chain_raising RunExamples.oauth_error)
                RunExamples.format_elapsed
                "enterprise_demo" "all" "investment_analysis"
                RunExamples.wired_world RunExamples.oauth_error eq_refl)
      as [Hcaught _].
    destruct (Hcaught eq_refl) as (f & Hrun & _ & Hcritical & _).
    exists f. split; [exact Hrun|].
    apply Hcritical. exists "401 oauth ", " failed". reflexivity.
  - destruct (failure_severity_classification
                (RunExamples.chain_raising RunExamples.system_exit)
                RunExamples.format_elapsed
                "enterprise_demo" "all" "investment_analysis"
                RunExamples.wired_world RunExamples.system_exit eq_refl)
      as [_ Hescaped].
    exact (proj1 (Hescaped eq_refl)).
Defined.

(** The two messages of the scenario, classified by the code. *)
Example severity_of_scenarios :
  severity_of RunExamples.auth_error = "critical"
  ∧ severity_of RunExamples.timeout_error = "high"
  ∧ severity_of {| type_name := "E"; message := "OAuth AUTHENTICATION failed";
                   is_exception := true |}
    = "critical".
Proof. repeat split. Qed.

(** C6 run on a chain that raises a timeout, and on one interrupted from
    the keyboard: the audit trail is as before in both, with two clock
    reads and a FAILURE result in the first, one read and the exception
    in the second. *)
Lemma failed_run_leaves_audit_trail :
  (∃ r, (RunExamples.run (RunExamples.chain_raising RunExamples.timeout_error)
                         RunExamples.wired_world).1 = Returned r
     ∧ result_status r = "FAILURE"
     ∧ result_compliance_report r = None
     ∧ ticks (clock
         (RunExamples.run (RunExamples.chain_raising RunExamples.timeout_error)
                          RunExamples.wired_world).2)
       = S (S (ticks (clock RunExamples.wired_world))))
  ∧ ECC.audit_trail (compliance_validator
      (RunExamples.run (RunExamples.chain_raising RunExamples.timeout_error)
                       RunExamples.wired_world).2)
    = ECC.audit_trail (compliance_validator RunExamples.wired_world)
  ∧ (RunExamples.run (RunExamples.chain_raising RunExamples.keyboard_interrupt)
                     RunExamples.wired_world).1
    = Raised RunExamples.keyboard_interrupt
  ∧ ECC.audit_trail (compliance_validator
      (RunExamples.run (RunExamples.chain_raising RunExamples.keyboard_interrupt)
                       RunExamples.wired_world).2)
    = ECC.audit_trail (compliance_validator RunExamples.wired_world).
Proof.
  destruct (failed_run_not_validated
              (RunExamples.chain_raising RunExamples.timeout_error)
              RunExamples.format_elapsed
              "enterprise_demo" "all" "investment_analysis"
              RunExamples.wired_world RunExamples.timeout_error eq_refl)
    as ((_ & Htrail & _) & Hcaught & _).
  destruct (failed_run_not_validated
              (RunExamples.chain_raising RunExamples.keyboard_interrupt)
              RunExamples.format_elapsed
              "enterprise_demo" "all" "investment_analysis"
              RunExamples.wired_world RunExamples.keyboard_interrupt eq_refl)
    as ((_ & Htrail' & _) & _ & Hescaped).
  split; [exact (Hcaught eq_refl)|].
  split; [exact Htrail|].
  split; [exact (proj1 (Hescaped eq_refl)) | exact Htrail'].
Defined.



(** The run's own input holds the keys of all three checked standards. *)
Lemma run_input_has_all_keys (dataset_id compliance_level analysis_type : string)
    (t : datetime) (standard k : string) :
  k ∈ ECC.required_keys standard →
  is_Some (make_pipeline_input dataset_id compliance_level analysis_type t !! k).
Proof.
  unfold ECC.required_keys.
  destruct (String.eqb standard "SOX"); [|destruct (String.eqb standard "GDPR");
    [|destruct (String.eqb standard "HIPAA")]];
    revert k; apply Forall_forall; repeat constructor; vm_compute; eauto.
Qed.

(** Hence the report of a successful run never lists a violation, whatever
    standards the validator is configured with. *)
Lemma successful_run_no_violations
    (enterprise_ml_pipeline : gmap string value → Outcome (gmap string value))
    (format_elapsed : datetime → datetime → string)
    (dataset_id compliance_level analysis_type : string) (w : World)
    (r : FinalResult) :
  (run_enterprise_pipeline enterprise_ml_pipeline format_elapsed
     dataset_id compliance_level analysis_type w).1 = Returned (Success r) →
  ECC.violations (compliance_report r) = [] ∧ compliance_status r = "PASSED".
Proof.
  destruct (enterprise_ml_pipeline
              (make_pipeline_input dataset_id compliance_level analysis_type
                 (reading (clock w) (ticks (clock w))))) as [out|e] eqn:Hchain.
  - rewrite (run_chain_returned _ _ _ _ _ _ out Hchain).
    intros [= <-]. cbn [compliance_report compliance_status].
    split; [|apply validate_compliance_status].
    rewrite validate_violations.
    rewrite !block_violations_nil; [done | | |]; intros _;
      apply all_fields_spec; intros k Hk.
    + by apply (run_input_has_all_keys _ _ _ _ "HIPAA").
    + by apply (run_input_has_all_keys _ _ _ _ "GDPR").
    + by apply (run_input_has_all_keys _ _ _ _ "SOX").
  - rewrite (run_chain_raised _ _ _ _ _ _ e Hchain).
    destruct (is_exception e); discriminate.
Qed.

(** * Further properties of the code *)

(** ** The validator *)

Lemma all_fields_false_spec (fields : list string) (data : gmap string value) :
  all (λ field, dict_in field data) fields = false
  ↔ ∃ k, k ∈ fields ∧ data !! k = None.
Proof.
  unfold all. induction fields as [|f fields IH]; cbn [forallb].
  - split; [done | intros (k & Hk & _); by apply elem_of_nil in Hk].
  - rewrite andb_false_iff, IH. split.
    + intros [Hf | (k & Hk & Hnone)].
      * exists f. split; [by left|].
        destruct (data !! f) as [v|] eqn:Hlook; [|done].
        assert (dict_in f data = true) as Hin by (apply dict_in_spec; by rewrite Hlook).
        congruence.
      * exists k. split; [by right | done].
    + intros (k & Hk & Hnone). apply elem_of_cons in Hk as [-> | Hk].
      * left. apply not_true_is_false. intros Hin%dict_in_spec.
        rewrite Hnone in Hin. by destruct Hin.
      * right. by exists k.
Qed.

Lemma block_status_spec (standard : string) (ok : bool) (self : ECC.t) :
  block_status standard ok self = Some "COMPLIANT"
  ↔ standard ∈ ECC.standards self ∧ ok = true.
Proof.
  unfold block_status. rewrite <- list_in_spec.
  destruct (list_in standard (ECC.standards self)), ok; simpl;
    split; try done; by intros [? ?].
Qed.

Lemma block_violations_sublist (standard : string) (ok : bool) (self : ECC.t) :
  block_violations standard ok self `sublist_of` [ECC.violation_entry standard].
Proof.
  unfold block_violations.
  destruct (list_in standard (ECC.standards self) && negb ok);
    [done | apply sublist_nil_l].
Qed.

(** X1: each of SOX, GDPR and HIPAA gets exactly one verdict.  Its status
    key is ["COMPLIANT"] exactly when the standard is configured and the
    context holds all of its keys; its entry is in [violations] exactly when
    it is configured and some key of it is missing; the status key holds
    nothing else. *)
Theorem checked_standard_verdict (self : ECC.t) (data : gmap string value)
    (c : Clock) (standard : string) :
  standard ∈ ["SOX"; "GDPR"; "HIPAA"] →
  (ECC.status_of standard (ECC.report_of self data c) = Some "COMPLIANT"
     ↔ standard ∈ ECC.standards self
       ∧ ∀ k, k ∈ ECC.required_keys standard → is_Some (data !! k))
  ∧ (ECC.violation_entry standard ∈ ECC.violations (ECC.report_of self data c)
     ↔ standard ∈ ECC.standards self
       ∧ ∃ k, k ∈ ECC.required_keys standard ∧ data !! k = None)
  ∧ (ECC.status_of standard (ECC.report_of self data c) = None
     ∨ ECC.status_of standard (ECC.report_of self data c) = Some "COMPLIANT").
Proof.
  intros Hthree. rewrite !elem_of_cons, elem_of_nil in Hthree.
  rewrite validate_violations_elem.
  destruct Hthree as [-> | [-> | [-> | []]]];
    cbn [ECC.status_of ECC.required_keys String.eqb Ascii.eqb Bool.eqb];
    rewrite ?validate_sox_status, ?validate_gdpr_status, ?validate_hipaa_status,
      block_status_spec, <- all_fields_spec, <- all_fields_false_spec.
  - split; [done|]. split.
    + split; [|intros [? ?]; left; done].
      intros [(_ & ? & ?) | [(He & _) | (He & _)]]; [done | |].
      * by apply (violation_entry_inj "SOX" "GDPR") in He.
      * by apply (violation_entry_inj "SOX" "HIPAA") in He.
    + rewrite <- block_status_spec. unfold block_status.
      destruct (list_in "SOX" (ECC.standards self)
                && ECC._validate_sox_compliance data); auto.
  - split; [done|]. split.
    + split; [|intros [? ?]; right; left; done].
      intros [(He & _) | [(_ & ? & ?) | (He & _)]]; [|done|].
      * by apply (violation_entry_inj "GDPR" "SOX") in He.
      * by apply (violation_entry_inj "GDPR" "HIPAA") in He.
    + rewrite <- block_status_spec. unfold block_status.
      destruct (list_in "GDPR" (ECC.standards self)
                && ECC._validate_gdpr_compliance data); auto.
  - split; [done|]. split.
    + split; [|intros [? ?]; right; right; done].
      intros [(He & _) | [(He & _) | (_ & ? & ?)]]; [| |done].
      * by apply (violation_entry_inj "HIPAA" "SOX") in He.
      * by apply (violation_entry_inj "HIPAA" "GDPR") in He.
    + rewrite <- block_status_spec. unfold block_status.
      destruct (list_in "HIPAA" (ECC.standards self)
                && ECC._validate_hipaa_compliance data); auto.
Qed.

(** X1 run on the default validator and the SOX-only context. *)
Lemma checked_standard_verdict_sox :
  (ECC.status_of "SOX" (ECC.report_of Examples.all_defaults Examples.sox_context
                          Examples.clock0) = Some "COMPLIANT"
     ↔ "SOX" ∈ ECC.standards Examples.all_defaults
       ∧ ∀ k, k ∈ ECC.required_keys "SOX" → is_Some (Examples.sox_context !! k))
  ∧ (ECC.violation_entry "SOX"
       ∈ ECC.violations (ECC.report_of Examples.all_defaults Examples.sox_context
                           Examples.clock0)
     ↔ "SOX" ∈ ECC.standards Examples.all_defaults
       ∧ ∃ k, k ∈ ECC.required_keys "SOX" ∧ Examples.sox_context !! k = None)
  ∧ (ECC.status_of "SOX" (ECC.report_of Examples.all_defaults Examples.sox_context
                            Examples.clock0) = None
     ∨ ECC.status_of "SOX" (ECC.report_of Examples.all_defaults Examples.sox_context
                              Examples.clock0) = Some "COMPLIANT").
Proof.
  apply (checked_standard_verdict Examples.all_defaults Examples.sox_context
                                  Examples.clock0 "SOX").
  apply (bool_decide_unpack _). vm_compute. reflexivity.
Defined.

(** X2: the entries of [violations] come in the order of the three blocks of
    [validate], SOX, GDPR, HIPAA, whatever the order of [self.standards]:
    the list is a sublist of the three entries in that order, so it has at
    most three entries. *)
Theorem violations_in_block_order (self : ECC.t) (data : gmap string value)
    (c : Clock) :
  ECC.violations (ECC.report_of self data c)
    `sublist_of` ["SOX violation detected"; "GDPR violation detected";
                  "HIPAA violation detected"]
  ∧ length (ECC.violations (ECC.report_of self data c)) ≤ 3.
Proof.
  assert (ECC.violations (ECC.report_of self data c)
            `sublist_of` ["SOX violation detected"; "GDPR violation detected";
                          "HIPAA violation detected"]) as Hsub.
  { rewrite validate_violations.
    change ["SOX violation detected"; "GDPR violation detected";
            "HIPAA violation detected"]
      with ([ECC.violation_entry "SOX"] ++ [ECC.violation_entry "GDPR"]
              ++ [ECC.violation_entry "HIPAA"]).
    repeat apply sublist_app; apply block_violations_sublist. }
  split; [exact Hsub|]. by apply sublist_length in Hsub.
Qed.

Lemma list_in_ext (x : string) (l l' : list string) :
  (x ∈ l ↔ x ∈ l') → list_in x l = list_in x l'.
Proof. intros H. unfold list_in. by apply bool_decide_ext. Qed.

(** X3: the verdicts depend on [self.standards] only through which of
    ["SOX"], ["GDPR"] and ["HIPAA"] occur in it.  Two validators that agree
    on these three names give, on the same context, the same violations and
    the same status keys; order, repetitions and other names do not
    matter. *)
Theorem verdicts_depend_on_checked_names (self self' : ECC.t)
    (data : gmap string value) (c c' : Clock) :
  (∀ standard, standard ∈ ["SOX"; "GDPR"; "HIPAA"] →
     (standard ∈ ECC.standards self ↔ standard ∈ ECC.standards self')) →
  ECC.violations (ECC.report_of self data c)
    = ECC.violations (ECC.report_of self' data c')
  ∧ ECC.sox_status (ECC.report_of self data c)
    = ECC.sox_status (ECC.report_of self' data c')
  ∧ ECC.gdpr_status (ECC.report_of self data c)
    = ECC.gdpr_status (ECC.report_of self' data c')
  ∧ ECC.hipaa_status (ECC.report_of self data c)
    = ECC.hipaa_status (ECC.report_of self' data c').
Proof.
  intros Hsame.
  rewrite !validate_violations, !validate_sox_status, !validate_gdpr_status,
    !validate_hipaa_status.
  unfold block_violations, block_status.
  rewrite (list_in_ext "SOX" _ (ECC.standards self')) by (apply Hsame; repeat constructor).
  rewrite (list_in_ext "GDPR" _ (ECC.standards self')) by (apply Hsame; repeat constructor).
  rewrite (list_in_ext "HIPAA" _ (ECC.standards self')) by (apply Hsame; repeat constructor).
  done.
Qed.

(** X3 run on the default list and a shuffled list with a repetition. *)
Lemma verdicts_of_shuffled_standards :
  ECC.violations (ECC.report_of Examples.all_defaults Examples.sox_context
                                Examples.clock0)
    = ECC.violations (ECC.report_of MoreExamples.shuffled Examples.sox_context
                                    (MoreExamples.clock_at 7))
  ∧ ECC.sox_status (ECC.report_of Examples.all_defaults Examples.sox_context
                                  Examples.clock0)
    = ECC.sox_status (ECC.report_of MoreExamples.shuffled Examples.sox_context
                                    (MoreExamples.clock_at 7))
  ∧ ECC.gdpr_status (ECC.report_of Examples.all_defaults Examples.sox_context
                                   Examples.clock0)
    = ECC.gdpr_status (ECC.report_of MoreExamples.shuffled Examples.sox_context
                                     (MoreExamples.clock_at 7))
  ∧ ECC.hipaa_status (ECC.report_of Examples.all_defaults Examples.sox_context
                                    Examples.clock0)
    = ECC.hipaa_status (ECC.report_of MoreExamples.shuffled Examples.sox_context
                                      (MoreExamples.clock_at 7)).
Proof.
  apply (verdicts_depend_on_checked_names Examples.all_defaults
           MoreExamples.shuffled Examples.sox_context Examples.clock0
           (MoreExamples.clock_at 7)).
  apply Forall_forall. repeat constructor;
    split; intros _; apply (bool_decide_unpack _); vm_compute; reflexivity.
Defined.

Lemma validate_audit_id (self : ECC.t) (data : gmap string value) (c : Clock) :
  ECC.audit_id (ECC.report_of self data c)
    = "audit_" +:+ strftime_Ymd_HMS (reading c (S (ticks c)))
  ∧ ECC.timestamp (ECC.report_of self data c) = isoformat (reading c (ticks c)).
Proof.
  unfold ECC.report_of, ECC.validate, ECC.check_sox, ECC.check_gdpr,
    ECC.check_hipaa; cbn [utcnow fst snd].
  destruct (list_in "SOX" (ECC.standards self)),
           (ECC._validate_sox_compliance data),
           (list_in "GDPR" (ECC.standards self)),
           (ECC._validate_gdpr_compliance data),
           (list_in "HIPAA" (ECC.standards self)),
           (ECC._validate_hipaa_compliance data); split; reflexivity.
Qed.

(** X4: [audit_id] has second precision.  It is built from the second clock
    read of the call alone, without its microseconds, so two calls whose
    second reads fall into the same second get the same [audit_id], whatever
    the validators and contexts. *)
Theorem audit_id_second_precision (self self' : ECC.t)
    (data data' : gmap string value) (c c' : Clock) :
  year (reading c (S (ticks c))) = year (reading c' (S (ticks c'))) →
  month (reading c (S (ticks c))) = month (reading c' (S (ticks c'))) →
  day (reading c (S (ticks c))) = day (reading c' (S (ticks c'))) →
  hour (reading c (S (ticks c))) = hour (reading c' (S (ticks c'))) →
  minute (reading c (S (ticks c))) = minute (reading c' (S (ticks c'))) →
  second (reading c (S (ticks c))) = second (reading c' (S (ticks c'))) →
  ECC.audit_id (ECC.report_of self data c)
    = ECC.audit_id (ECC.report_of self' data' c').
Proof.
  intros Hy Hmo Hd Hh Hmi Hs.
  rewrite (proj1 (validate_audit_id self data c)),
    (proj1 (validate_audit_id self' data' c')).
  unfold strftime_Ymd_HMS. by rewrite Hy, Hmo, Hd, Hh, Hmi, Hs.
Qed.

(** X4 run on two calls within one second: the reports differ in their
    timestamp and their violations and share the [audit_id]. *)
Lemma audit_id_collision :
  ECC.audit_id (ECC.report_of Examples.sox_only ∅ (MoreExamples.clock_at 100))
    = ECC.audit_id (ECC.report_of Examples.gdpr_only Examples.sox_context
                                  (MoreExamples.clock_at 4200))
  ∧ ECC.timestamp (ECC.report_of Examples.sox_only ∅ (MoreExamples.clock_at 100))
    = "2024-03-09T07:05:30.000100"
  ∧ ECC.timestamp (ECC.report_of Examples.gdpr_only Examples.sox_context
                                 (MoreExamples.clock_at 4200))
    = "2024-03-09T07:05:30.004200"
  ∧ ECC.violations (ECC.report_of Examples.sox_only ∅ (MoreExamples.clock_at 100))
    = ["SOX violation detected"]
  ∧ ECC.violations (ECC.report_of Examples.gdpr_only Examples.sox_context
                                  (MoreExamples.clock_at 4200))
    = ["GDPR violation detected"].
Proof.
  split; [|repeat split; reflexivity].
  apply (audit_id_second_precision Examples.sox_only Examples.gdpr_only
           ∅ Examples.sox_context
           (MoreExamples.clock_at 100) (MoreExamples.clock_at 4200));
    reflexivity.
Defined.

Lemma report_ignores_audit_trail (self self' : ECC.t) (data : gmap string value)
    (c : Clock) :
  ECC.standards self = ECC.standards self' →
  ECC.report_of self data c = ECC.report_of self' data c.
Proof.
  intros Hst. unfold ECC.report_of, ECC.validate, ECC.check_sox, ECC.check_gdpr,
    ECC.check_hipaa. by rewrite Hst.
Qed.

(** X5: calls accumulate in call order.  After two calls in a row the audit
    trail is the old trail followed by the first and then the second report,
    and the second report is the one a validator with an untouched trail
    would have produced: what is already in the trail never influences a
    report. *)
Theorem validate_twice (self : ECC.t) (data1 data2 : gmap string value)
    (c : Clock) :
  ECC.audit_trail
      (ECC.self_after (ECC.self_after self data1 c) data2
                      (ECC.validate self data1 c).2)
    = ECC.audit_trail self
        ++ [ECC.report_of self data1 c;
            ECC.report_of self data2 (ECC.validate self data1 c).2]
  ∧ ECC.report_of (ECC.self_after self data1 c) data2 (ECC.validate self data1 c).2
    = ECC.report_of self data2 (ECC.validate self data1 c).2
  ∧ ticks (ECC.validate (ECC.self_after self data1 c) data2
                        (ECC.validate self data1 c).2).2
    = 4 + ticks c.
Proof.
  assert (ECC.report_of (ECC.self_after self data1 c) data2
                        (ECC.validate self data1 c).2
          = ECC.report_of self data2 (ECC.validate self data1 c).2) as Hsame.
  { by apply report_ignores_audit_trail. }
  split; [|split; [exact Hsame | reflexivity]].
  rewrite validate_self_after, Hsame, validate_self_after.
  cbn [ECC.audit_trail]. by rewrite <- app_assoc.
Qed.

(** X6: [__init__] never leaves a validator without standards.  A non-empty
    list is kept as given; [None] and the empty list both give the default
    four names, so passing [[]] does not switch the checks off; the audit
    trail starts empty. *)
Theorem init_standards_never_empty (standards : option (list string)) :
  ECC.standards (ECC.init standards) ≠ []
  ∧ ECC.audit_trail (ECC.init standards) = []
  ∧ (standards = Some (ECC.standards (ECC.init standards))
     ∨ (ECC.standards (ECC.init standards) = ECC.default_standards
        ∧ (standards = None ∨ standards = Some [])))
  ∧ ECC.init (Some []) = ECC.init None.
Proof.
  destruct standards as [[|s l]|]; cbn [ECC.init ECC.standards ECC.audit_trail];
    repeat split; try done; auto.
Qed.

(** ** The notification chain *)

(** X7: in [EnterpriseNotificationChain.__init__] a non-empty argument wins
    over the environment, and an argument that is [None] or empty gives way
    to the variable's value as it is.  Hence a channel is configured exactly
    when its argument or its variable is a non-empty string, and neither
    channel looks at the other channel's argument. *)
Theorem notification_init_precedence (getenv : string → option string)
    (slack_webhook pagerduty_key : option string) :
  str_truthy (ENC.slack_webhook (ENC.init getenv slack_webhook pagerduty_key))
    = str_truthy slack_webhook || str_truthy (getenv "SLACK_WEBHOOK_URL")
  ∧ str_truthy (ENC.pagerduty_key (ENC.init getenv slack_webhook pagerduty_key))
    = str_truthy pagerduty_key || str_truthy (getenv "PAGERDUTY_INTEGRATION_KEY")
  ∧ (str_truthy slack_webhook = true →
     ENC.slack_webhook (ENC.init getenv slack_webhook pagerduty_key) = slack_webhook)
  ∧ (str_truthy pagerduty_key = true →
     ENC.pagerduty_key (ENC.init getenv slack_webhook pagerduty_key) = pagerduty_key)
  ∧ (str_truthy slack_webhook = false →
     ENC.slack_webhook (ENC.init getenv slack_webhook pagerduty_key)
       = getenv "SLACK_WEBHOOK_URL")
  ∧ (str_truthy pagerduty_key = false →
     ENC.pagerduty_key (ENC.init getenv slack_webhook pagerduty_key)
       = getenv "PAGERDUTY_INTEGRATION_KEY").
Proof.
  unfold ENC.init, or_else. cbn [ENC.slack_webhook ENC.pagerduty_key].
  destruct (str_truthy slack_webhook) eqn:Hs, (str_truthy pagerduty_key) eqn:Hp;
    rewrite ?Hs, ?Hp; repeat split; try done.
Qed.

(** X8: [notify_success] reports the Slack channel exactly when a non-empty
    webhook is set, never the paging channel, always with status
    ["success"], and its result does not depend on the pipeline result it
    is given. *)
Theorem notify_success_slack_only {R R' : Type} (self : ENC.t)
    (pipeline_result : R) (other_result : R') :
  ("slack" ∈ ENC.notifications_sent (ENC.notify_success self pipeline_result)
     ↔ ∃ url, ENC.slack_webhook self = Some url ∧ url ≠ "")
  ∧ (∀ channel,
       channel ∈ ENC.notifications_sent (ENC.notify_success self pipeline_result) →
       channel = "slack")
  ∧ ENC.status (ENC.notify_success self pipeline_result) = "success"
  ∧ ENC.notify_success self pipeline_result = ENC.notify_success self other_result.
Proof.
  rewrite <- str_truthy_spec. unfold ENC.notify_success.
  cbn [ENC.notifications_sent ENC.status].
  destruct (str_truthy (ENC.slack_webhook self)); cbn [app].
  - repeat split; try done.
    + intros _. by apply list_elem_of_singleton.
    + intros channel Hin. by apply list_elem_of_singleton in Hin.
  - repeat split; try done.
    + intros Hin. by apply elem_of_nil in Hin.
    + intros channel Hin. by apply elem_of_nil in Hin.
Qed.

(** X9: [notify_failure] never reports the Slack channel, even with a webhook
    set, and at most the paging channel.  When the detail has no
    ["severity"] key, or a severity other than ["critical"], nothing is
    notified at all, and the status is ["failure_notified"] all the same. *)
Theorem notify_failure_never_slack (self : ENC.t) (d : gmap string value) :
  (∀ channel, channel ∈ ENC.notifications_sent (ENC.notify_failure self d) →
              channel = "pagerduty")
  ∧ length (ENC.notifications_sent (ENC.notify_failure self d)) ≤ 1
  ∧ ENC.status (ENC.notify_failure self d) = "failure_notified"
  ∧ (d !! "severity" ≠ Some (VStr "critical") →
     ENC.notifications_sent (ENC.notify_failure self d) = [])
  ∧ (str_truthy (ENC.pagerduty_key self) = false →
     ENC.notifications_sent (ENC.notify_failure self d) = []).
Proof.
  unfold ENC.notify_failure. cbn [ENC.notifications_sent ENC.status].
  destruct (str_truthy (ENC.pagerduty_key self)) eqn:Hkey,
           (ENC.severity_is_critical d) eqn:Hcrit; cbn [andb app length].
  - apply severity_is_critical_spec in Hcrit. repeat split; try done; try lia.
    intros channel Hin. by apply list_elem_of_singleton in Hin.
  - repeat split; try done; try lia.
    intros channel Hin. by apply elem_of_nil in Hin.
  - repeat split; try done; try lia.
    intros channel Hin. by apply elem_of_nil in Hin.
  - repeat split; try done; try lia.
    intros channel Hin. by apply elem_of_nil in Hin.
Qed.

Lemma lower_append (s t : string) : lower (s +:+ t) = lower s +:+ lower t.
Proof.
  induction s as [|a s IH]; [done|].
  rewrite append_String. cbn [lower]. by rewrite append_String, IH.
Qed.

(** X10: the severity test ignores letter case and position.  A message
    that contains ["authentication"] in any mix of upper and lower case,
    anywhere in it, is classified ["critical"]. *)
Theorem severity_case_insensitive (type_name pre mid post : string)
    (is_exception : bool) :
  lower mid = "authentication" →
  severity_of {| type_name := type_name; message := pre +:+ mid +:+ post;
                 is_exception := is_exception |}
    = "critical".
Proof.
  intros Hmid. unfold severity_of. cbn [message].
  assert (str_in "authentication" (lower (pre +:+ mid +:+ post)) = true) as ->.
  { apply str_in_spec. exists (lower pre), (lower post).
    by rewrite !lower_append, Hmid. }
  reflexivity.
Qed.

(** X10 run on a message in mixed case. *)
Lemma severity_mixed_case :
  severity_of {| type_name := "HTTPError";
                 message := "401: Azure AD AuthentiCATION failed";
                 is_exception := true |}
    = "critical".
Proof.
  exact (severity_case_insensitive "HTTPError" "401: Azure AD " "AuthentiCATION"
           " failed" true eq_refl).
Defined.

(** X11: the [except] block and [notify_failure] together.  For the details
    the block builds from an exception, the paging channel is reported
    exactly when a non-empty integration key is set and the lowercased
    message contains ["authentication"]. *)
Theorem failure_details_paging (self : ENC.t) (e : Exn)
    (pipeline_input : gmap string value) (timestamp : datetime) :
  "pagerduty" ∈ ENC.notifications_sent
      (ENC.notify_failure self (make_error_details e pipeline_input timestamp))
  ↔ (∃ key, ENC.pagerduty_key self = Some key ∧ key ≠ "")
    ∧ ∃ pre post, lower (message e) = pre +:+ "authentication" +:+ post.
Proof.
  rewrite <- str_truthy_spec, <- str_in_spec.
  unfold ENC.notify_failure, ENC.severity_is_critical.
  cbn [ENC.notifications_sent].
  assert (make_error_details e pipeline_input timestamp !! "severity"
          = Some (VStr (severity_of e))) as -> by reflexivity.
  unfold severity_of.
  destruct (str_truthy (ENC.pagerduty_key self)),
           (str_in "authentication" (lower (message e))); cbn.
  - split; [done|]. intros _. by apply list_elem_of_singleton.
  - split; [intros Hin; by apply elem_of_nil in Hin | by intros [_ ?]].
  - split; [intros Hin; by apply elem_of_nil in Hin | by intros [? _]].
  - split; [intros Hin; by apply elem_of_nil in Hin | by intros [? _]].
Qed.

(** ** The top-level run *)

Section MoreRunFacts.

Variable enterprise_ml_pipeline : gmap string value → Outcome (gmap string value).
Variable format_elapsed : datetime → datetime → string.
Variables dataset_id compliance_level analysis_type : string.
Variable w : World.

Local Abbreviation start := (reading (clock w) (ticks (clock w))).
Local Abbreviation input :=
  (make_pipeline_input dataset_id compliance_level analysis_type start).
Local Abbreviation run :=
  (run_enterprise_pipeline enterprise_ml_pipeline format_elapsed
     dataset_id compliance_level analysis_type w).

(** X12: what leaves [run_enterprise_pipeline] follows the chain.  When
    the chain returns, the run returns a result with status ["SUCCESS"]
    that carries a compliance report.  When the chain raises an
    [Exception], the run returns a result with status ["FAILURE"],
    compliance status ["UNKNOWN"] and no report.  When the chain raises
    anything else ([KeyboardInterrupt], [SystemExit]), the run raises it.
    So a returned result has status ["SUCCESS"] exactly when the chain
    returned and ["FAILURE"] exactly when the chain raised an [Exception],
    and the run raises exactly what the chain raised outside [Exception]. *)
Theorem run_status_follows_chain :
  match enterprise_ml_pipeline input with
  | Returned out =>
      ∃ r, run.1 = Returned r
        ∧ result_status r = "SUCCESS"
        ∧ is_Some (result_compliance_report r)
  | Raised e =>
      if is_exception e
      then ∃ r, run.1 = Returned r
             ∧ result_status r = "FAILURE"
             ∧ result_compliance_status r = "UNKNOWN"
             ∧ result_compliance_report r = None
      else run.1 = Raised e
  end
  ∧ (∀ r, run.1 = Returned r →
       (result_status r = "SUCCESS"
        ↔ ∃ out, enterprise_ml_pipeline input = Returned out)
       ∧ (result_status r = "FAILURE"
          ↔ ∃ e, enterprise_ml_pipeline input = Raised e
                 ∧ is_exception e = true)
       ∧ (result_status r = "FAILURE" → result_compliance_status r = "UNKNOWN")
       ∧ (result_status r = "SUCCESS" → is_Some (result_compliance_report r)))
  ∧ (∀ e, run.1 = Raised e
          ↔ enterprise_ml_pipeline input = Raised e ∧ is_exception e = false).
Proof.
  destruct (enterprise_ml_pipeline input) as [out|e] eqn:Hchain.
  - rewrite (run_chain_returned _ _ _ _ _ _ out Hchain). cbn [fst].
    split; [by eexists|]. split.
    + intros r [= <-]. cbn [result_status status].
      repeat split; try done; eauto.
      intros (e & [=] & _).
    + intros e. split; [discriminate | by intros [[=] _]].
  - rewrite (run_chain_raised _ _ _ _ _ _ e Hchain).
    destruct (is_exception e) eqn:Hexc; cbn [fst].
    + split; [by eexists|]. split.
      * intros r [= <-]. cbn [result_status failure_status].
        repeat split; try done; eauto.
        intros [out [=]].
      * intros e'. split; [discriminate|].
        intros [[= <-] Hexc']. congruence.
    + split; [reflexivity|]. split; [discriminate|].
      intros e'. split; [by intros [= <-] | by intros [[= <-] _]].
Qed.

(** X13: a run only ever appends to the audit trail.  The trail before the
    run is a prefix of the trail after it, at most one entry longer; the
    validator's standards, the notification configuration and the clock's
    readings are unchanged, and the clock only moves forward. *)
Theorem run_audit_trail_append_only :
  ECC.audit_trail (compliance_validator w)
    `prefix_of` ECC.audit_trail (compliance_validator run.2)
  ∧ length (ECC.audit_trail (compliance_validator run.2))
    ≤ S (length (ECC.audit_trail (compliance_validator w)))
  ∧ ECC.standards (compliance_validator run.2)
    = ECC.standards (compliance_validator w)
  ∧ notification_system run.2 = notification_system w
  ∧ reading (clock run.2) = reading (clock w)
  ∧ ticks (clock w) < ticks (clock run.2).
Proof.
  destruct (enterprise_ml_pipeline input) as [out|e] eqn:Hchain.
  - rewrite (run_chain_returned _ _ _ _ _ _ out Hchain).
    cbn [snd compliance_validator notification_system clock reading ticks].
    rewrite validate_self_after. cbn [ECC.audit_trail ECC.standards].
    repeat split; try done; try lia.
    + by apply prefix_app_r.
    + rewrite length_app. simpl. lia.
  - rewrite (run_chain_raised _ _ _ _ _ _ e Hchain).
    destruct (is_exception e);
      cbn [snd compliance_validator notification_system clock reading ticks];
      repeat split; try done; lia.
Qed.

(** X14: the fields of a SUCCESS result agree with each other and with the
    audit trail.  [compliance_status] and [audit_trail_id] are those of the
    result's compliance report, the report lists the configured standards
    and is the last entry of the audit trail, and the execution id and the
    audit id are stamped from different clock reads, the first and the
    third of the run. *)
Theorem success_result_consistent (r : FinalResult) :
  run.1 = Returned (Success r) →
  compliance_status r = ECC.compliance_status (compliance_report r)
  ∧ audit_trail_id r = ECC.audit_id (compliance_report r)
  ∧ last (ECC.audit_trail (compliance_validator run.2)) = Some (compliance_report r)
  ∧ ECC.standards_checked (compliance_report r)
    = ECC.standards (compliance_validator w)
  ∧ execution_id r = VStr ("exec_" +:+ strftime_Ymd_HMS start)
  ∧ audit_trail_id r
    = "audit_" +:+ strftime_Ymd_HMS (reading (clock w) (S (S (ticks (clock w)))))
  ∧ ECC.timestamp (compliance_report r)
    = isoformat (reading (clock w) (S (ticks (clock w))))
  ∧ Some (pipeline_output r)
    = match enterprise_ml_pipeline input with
      | Returned out => Some out
      | Raised _ => None
      end.
Proof.
  destruct (enterprise_ml_pipeline input) as [out|e] eqn:Hchain.
  - rewrite (run_chain_returned _ _ _ _ _ _ out Hchain).
    cbn [fst snd compliance_validator]. intros [= <-].
    cbn [compliance_status compliance_report audit_trail_id execution_id
         pipeline_output].
    rewrite validate_self_after, validate_standards_checked.
    cbn [ECC.audit_trail]. rewrite last_snoc.
    destruct (validate_audit_id (compliance_validator w) input
                {| reading := reading (clock w); ticks := S (ticks (clock w)) |})
      as [Hid Hts].
    rewrite Hid, Hts. repeat split.
  - rewrite (run_chain_raised _ _ _ _ _ _ e Hchain).
    destruct (is_exception e); discriminate.
Qed.

(** X15: the details of a FAILURE result.  When the chain raises an
    [Exception] [e], the one kind that [except Exception] handles, the
    result's [error_details] have exactly the five keys [error_type],
    [error_message], [execution_id], [timestamp] and [severity]; the type
    and the message are those of [e], the execution id is the one of this
    run (the fallback ["unknown"] is never used), and the timestamp is the
    clock read that follows the start of the run. *)
Theorem failure_details_complete (e : Exn) :
  enterprise_ml_pipeline input = Raised e →
  is_exception e = true →
  ∃ f, run.1 = Returned (Failure f)
    ∧ dom (error_details f)
      = {["error_type"; "error_message"; "execution_id"; "timestamp"; "severity"]}
    ∧ error_details f !! "error_type" = Some (VStr (type_name e))
    ∧ error_details f !! "error_message" = Some (VStr (message e))
    ∧ error_details f !! "execution_id"
      = Some (VStr ("exec_" +:+ strftime_Ymd_HMS start))
    ∧ error_details f !! "timestamp"
      = Some (VStr (isoformat (reading (clock w) (S (ticks (clock w))))))
    ∧ failure_compliance_status f = "UNKNOWN".
Proof.
  intros Hchain Hexc. rewrite (run_chain_caught _ _ _ _ _ _ e Hchain Hexc).
  eexists. split; [reflexivity|]. cbn [error_details failure_compliance_status].
  repeat split.
Qed.

End MoreRunFacts.

(** X14 run on a chain that returns. *)
Lemma success_result_consistent_example :
  ∃ r, (RunExamples.run RunExamples.chain_returning RunExamples.wired_world).1
       = Returned (Success r)
    ∧ compliance_status r = ECC.compliance_status (compliance_report r)
    ∧ audit_trail_id r = ECC.audit_id (compliance_report r)
    ∧ execution_id r = VStr "exec_20240309_070500"
    ∧ audit_trail_id r = "audit_20240309_070502".
Proof.
  eexists. split; [reflexivity|].
  destruct (success_result_consistent
              RunExamples.chain_returning RunExamples.format_elapsed
              "enterprise_demo" "all" "investment_analysis"
              RunExamples.wired_world _ eq_refl)
    as (Hstatus & Hid & _ & _ & Hexec & Haudit & _).
  split; [exact Hstatus|]. split; [exact Hid|].
  split; [exact Hexec | exact Haudit].
Defined.

(** X15 run on a chain that raises. *)
Lemma failure_details_example :
  ∃ f, (RunExamples.run (RunExamples.chain_raising RunExamples.timeout_error)
                        RunExamples.bare_world).1 = Returned (Failure f)
    ∧ dom (error_details f)
      = {["error_type"; "error_message"; "execution_id"; "timestamp"; "severity"]}
    ∧ error_details f !! "error_type" = Some (VStr "TimeoutError")
    ∧ error_details f !! "error_message" = Some (VStr "downstream timeout")
    ∧ error_details f !! "execution_id" = Some (VStr "exec_20240309_070500")
    ∧ error_details f !! "timestamp" = Some (VStr "2024-03-09T07:05:01")
    ∧ failure_compliance_status f = "UNKNOWN".
Proof.
  exact (failure_details_complete
           (RunExamples.chain_raising RunExamples.timeout_error)
           RunExamples.format_elapsed
           "enterprise_demo" "all" "investment_analysis"
           RunExamples.bare_world RunExamples.timeout_error eq_refl eq_refl).
Defined.

(** X16: the compliance report of a run is computed from the run's own
    input, not from what the chain returned.  Two runs from the same state
    and arguments whose chains both return get the same report and leave
    the same validator behind, whatever the two outputs are. *)
Theorem report_independent_of_chain_output
    (chain1 chain2 : gmap string value → Outcome (gmap string value))
    (format1 format2 : datetime → datetime → string)
    (dataset_id compliance_level analysis_type : string) (w : World)
    (r1 r2 : FinalResult) :
  (run_enterprise_pipeline chain1 format1
     dataset_id compliance_level analysis_type w).1 = Returned (Success r1) →
  (run_enterprise_pipeline chain2 format2
     dataset_id compliance_level analysis_type w).1 = Returned (Success r2) →
  compliance_report r1 = compliance_report r2
  ∧ compliance_status r1 = compliance_status r2
  ∧ compliance_validator
      (run_enterprise_pipeline chain1 format1
         dataset_id compliance_level analysis_type w).2
    = compliance_validator
        (run_enterprise_pipeline chain2 format2
           dataset_id compliance_level analysis_type w).2.
Proof.
  destruct (chain1 (make_pipeline_input dataset_id compliance_level analysis_type
                      (reading (clock w) (ticks (clock w))))) as [o1|e1] eqn:H1;
    [rewrite (run_chain_returned _ _ _ _ _ _ o1 H1)
    |rewrite (run_chain_raised _ _ _ _ _ _ e1 H1);
     destruct (is_exception e1); discriminate].
  destruct (chain2 (make_pipeline_input dataset_id compliance_level analysis_type
                      (reading (clock w) (ticks (clock w))))) as [o2|e2] eqn:H2;
    [rewrite (run_chain_returned _ _ _ _ _ _ o2 H2)
    |rewrite (run_chain_raised _ _ _ _ _ _ e2 H2);
     destruct (is_exception e2); discriminate].
  cbn [fst snd compliance_validator]. intros [= <-] [= <-].
  repeat split.
Qed.

(** X16 run on two chains with different outputs. *)
Lemma report_independent_example :
  ∃ r1 r2,
    (RunExamples.run RunExamples.chain_returning RunExamples.bare_world).1
      = Returned (Success r1)
    ∧ (RunExamples.run (λ _, Returned ∅) RunExamples.bare_world).1
      = Returned (Success r2)
    ∧ pipeline_output r1 ≠ pipeline_output r2
    ∧ compliance_report r1 = compliance_report r2.
Proof.
  eexists _, _. split; [reflexivity|]. split; [reflexivity|].
  split; [vm_compute; discriminate|].
  exact (proj1 (report_independent_of_chain_output
                  RunExamples.chain_returning (λ _, Returned ∅)
                  RunExamples.format_elapsed RunExamples.format_elapsed
                  "enterprise_demo" "all" "investment_analysis"
                  RunExamples.bare_world _ _ eq_refl eq_refl)).
Defined.

(** X17: the report of a successful run is always clean.  The run's input
    literal holds every key of SOX, GDPR and HIPAA, so for every configured
    list of standards the report has no violation, status ["PASSED"], and
    marks each configured one of the three ["COMPLIANT"]. *)
Theorem successful_run_report_clean
    (enterprise_ml_pipeline : gmap string value → Outcome (gmap string value))
    (format_elapsed : datetime → datetime → string)
    (dataset_id compliance_level analysis_type : string) (w : World)
    (r : FinalResult) :
  (run_enterprise_pipeline enterprise_ml_pipeline format_elapsed
     dataset_id compliance_level analysis_type w).1 = Returned (Success r) →
  ECC.violations (compliance_report r) = []
  ∧ compliance_status r = "PASSED"
  ∧ ∀ standard, standard ∈ ["SOX"; "GDPR"; "HIPAA"] →
      standard ∈ ECC.standards (compliance_validator w) →
      ECC.status_of standard (compliance_report r) = Some "COMPLIANT".
Proof.
  intros Hrun.
  destruct (successful_run_no_violations _ _ _ _ _ _ _ Hrun) as [Hnone Hpassed].
  split; [exact Hnone|]. split; [exact Hpassed|].
  revert Hrun.
  destruct (enterprise_ml_pipeline
              (make_pipeline_input dataset_id compliance_level analysis_type
                 (reading (clock w) (ticks (clock w))))) as [out|e] eqn:Hchain;
    [rewrite (run_chain_returned _ _ _ _ _ _ out Hchain)
    |rewrite (run_chain_raised _ _ _ _ _ _ e Hchain);
     destruct (is_exception e); discriminate].
  intros [= <-] standard Hthree Hin. cbn [compliance_report].
  rewrite !elem_of_cons, elem_of_nil in Hthree.
  destruct Hthree as [-> | [-> | [-> | []]]];
    cbn [ECC.status_of String.eqb Ascii.eqb Bool.eqb];
    rewrite ?validate_sox_status, ?validate_gdpr_status, ?validate_hipaa_status;
    apply block_status_spec; (split; [exact Hin|]);
    apply all_fields_spec; intros k Hk.
  - by apply (run_input_has_all_keys _ _ _ _ "SOX").
  - by apply (run_input_has_all_keys _ _ _ _ "GDPR").
  - by apply (run_input_has_all_keys _ _ _ _ "HIPAA").
Qed.

(** X17 run on the module's own validator. *)
Lemma successful_run_report_clean_example :
  ∃ r, (RunExamples.run RunExamples.chain_returning RunExamples.wired_world).1
       = Returned (Success r)
    ∧ ECC.violations (compliance_report r) = []
    ∧ compliance_status r = "PASSED"
    ∧ ECC.sox_status (compliance_report r) = Some "COMPLIANT".
Proof.
  eexists. split; [reflexivity|].
  destruct (successful_run_report_clean
              RunExamples.chain_returning RunExamples.format_elapsed
              "enterprise_demo" "all" "investment_analysis"
              RunExamples.wired_world _ eq_refl)
    as (Hnone & Hpassed & Hstatus).
  split; [exact Hnone|]. split; [exact Hpassed|].
  apply (Hstatus "SOX"); apply (bool_decide_unpack _); vm_compute; reflexivity.
Defined.

(** ** The coverage mission runner *)

Module CoverageFacts.

Import CoverageMissions.

Lemma paths_checked_app (tr1 tr2 : list event) :
  paths_checked (tr1 ++ tr2) = paths_checked tr1 ++ paths_checked tr2.
Proof. apply flat_map_app. Qed.

Lemma paths_found_app (tr1 tr2 : list event) :
  paths_found (tr1 ++ tr2) = paths_found tr1 ++ paths_found tr2.
Proof. apply flat_map_app. Qed.

Lemma paths_missing_app (tr1 tr2 : list event) :
  paths_missing (tr1 ++ tr2) = paths_missing tr1 ++ paths_missing tr2.
Proof. apply flat_map_app. Qed.

Lemma commands_app (tr1 tr2 : list event) :
  commands (tr1 ++ tr2) = commands tr1 ++ commands tr2.
Proof. apply flat_map_app. Qed.

Lemma exit_codes_app (tr1 tr2 : list event) :
  exit_codes (tr1 ++ tr2) = exit_codes tr1 ++ exit_codes tr2.
Proof. apply flat_map_app. Qed.

Lemma lines_printed_app (tr1 tr2 : list event) :
  lines_printed (tr1 ++ tr2) = lines_printed tr1 ++ lines_printed tr2.
Proof. apply flat_map_app. Qed.

Lemma seconds_slept_app (tr1 tr2 : list event) :
  seconds_slept (tr1 ++ tr2) = seconds_slept tr1 + seconds_slept tr2.
Proof.
  induction tr1 as [|ev tr1 IH]; [done|].
  destruct ev; cbn [app seconds_slept]; rewrite IH; lia.
Qed.

Ltac split_readings :=
  rewrite ?paths_checked_app, ?paths_found_app, ?paths_missing_app,
    ?commands_app, ?exit_codes_app, ?lines_printed_app, ?seconds_slept_app,
    ?filter_app, ?length_app, ?map_app.

(** One statement for every way the loop can end, by induction on the
    missions that are left. *)
Lemma main_loop_spec (os : OS) (ms : list string) :
  ∀ successful failed tr out tr',
    main_loop os ms successful failed tr = (out, tr') →
    ∃ evs, tr' = tr ++ evs
      ∧ commands evs = map cargo_argv (paths_found evs)
      ∧ Forall loop_line (lines_printed evs)
      ∧ match out with
        | Returned (successful', failed') =>
            paths_checked evs = ms
            ∧ seconds_slept evs = 5 * length (paths_found evs)
            ∧ length (exit_codes evs) = length (paths_found evs)
            ∧ successful' = successful + length (filter (λ z, z = 0%Z) (exit_codes evs))
            ∧ failed' = failed + length (filter (λ z, z ≠ 0%Z) (exit_codes evs))
            ∧ length (paths_missing evs) + length (paths_found evs) = length ms
        | Raised e =>
            ∃ before mission after, ms = before ++ mission :: after
              ∧ paths_checked evs = before ++ [mission]
              ∧ last evs = Some (SubprocessRun (cargo_argv mission) true (Raised e))
        end.
Proof.
  induction ms as [|mission ms IH]; intros successful failed tr out tr' Hrun.
  - cbn in Hrun. injection Hrun as <- <-. exists [].
    rewrite app_nil_r. repeat split; try done; cbn; lia.
  - cbn [main_loop] in Hrun. unfold io_bind at 1 in Hrun.
    unfold path_exists in Hrun.
    destruct (os_path_exists os tr mission) eqn:Hfound; cbn [negb] in Hrun.
    + unfold execute_mission, io_bind, print, subprocess_run, sleep, io_ret in Hrun.
      fold (@io_bind (nat * nat)) in Hrun.
      destruct (os_subprocess_run os
                  ((tr ++ [PathExists mission true])
                     ++ [Print ("Executing: " +:+ mission)])
                  (cargo_argv mission) true) as [result|e] eqn:Hsub.
      * destruct (Z.eqb (returncode result) 0) eqn:Hcode.
        -- apply IH in Hrun as (evs & -> & Hcmd & Hlines & Hout).
           exists ([PathExists mission true; Print ("Executing: " +:+ mission);
                    SubprocessRun (cargo_argv mission) true (Returned result);
                    Print ("SUCCESS: " +:+ mission); Sleep 5] ++ evs).
           split; [by rewrite <- !app_assoc|]. split_readings.
           split; [cbn; by rewrite Hcmd|].
           split; [apply Forall_app; split; [repeat constructor | exact Hlines]|].
           destruct out as [[successful' failed']|e].
           ++ destruct Hout as (Hchk & Hsleep & Hlen & Hs & Hf & Hall).
              apply Z.eqb_eq in Hcode.
              cbn. rewrite Hchk, Hsleep, Hlen, Hs, Hf, <- Hall, Hcode.
              repeat case_decide; try done; repeat split; cbn; lia.
           ++ destruct Hout as (before & m & after & -> & Hchk & Hlast).
              exists (mission :: before), m, after. split; [done|].
              split; [cbn; by rewrite Hchk|].
              by rewrite last_app, Hlast.
        -- apply IH in Hrun as (evs & -> & Hcmd & Hlines & Hout).
           exists ([PathExists mission true; Print ("Executing: " +:+ mission);
                    SubprocessRun (cargo_argv mission) true (Returned result);
                    Print ("FAILED: " +:+ mission);
                    Print ("Error: " +:+ format_opt (stderr result));
                    Sleep 5] ++ evs).
           split; [by rewrite <- !app_assoc|]. split_readings.
           split; [cbn; by rewrite Hcmd|].
           split; [apply Forall_app; split; [repeat constructor | exact Hlines]|].
           destruct out as [[successful' failed']|e].
           ++ destruct Hout as (Hchk & Hsleep & Hlen & Hs & Hf & Hall).
              apply Z.eqb_neq in Hcode.
              cbn. rewrite Hchk, Hsleep, Hlen, Hs, Hf, <- Hall.
              repeat case_decide; try done; repeat split; cbn; lia.
           ++ destruct Hout as (before & m & after & -> & Hchk & Hlast).
              exists (mission :: before), m, after. split; [done|].
              split; [cbn; by rewrite Hchk|].
              by rewrite last_app, Hlast.
      * injection Hrun as <- <-.
        exists [PathExists mission true; Print ("Executing: " +:+ mission);
                SubprocessRun (cargo_argv mission) true (Raised e)].
        split; [by rewrite <- !app_assoc|].
        split; [done|]. split; [cbn; repeat constructor|].
        by exists [], mission, ms.
    + unfold io_bind, print in Hrun. fold (@io_bind (nat * nat)) in Hrun.
      apply IH in Hrun as (evs & -> & Hcmd & Hlines & Hout).
      exists ([PathExists mission false;
               Print ("SKIP: " +:+ mission +:+ " not found")] ++ evs).
      split; [by rewrite <- !app_assoc|]. split_readings.
      split; [cbn; by rewrite Hcmd|].
      split; [apply Forall_app; split; [repeat constructor | exact Hlines]|].
      destruct out as [[successful' failed']|e].
      * destruct Hout as (Hchk & Hsleep & Hlen & Hs & Hf & Hall).
        cbn. rewrite Hchk, Hsleep, Hlen, Hs, Hf, <- Hall.
        repeat split; cbn; lia.
      * destruct Hout as (before & m & after & -> & Hchk & Hlast).
        exists (mission :: before), m, after. split; [done|].
        split; [cbn; by rewrite Hchk|].
        by rewrite last_app, Hlast.
Qed.

Lemma main_loop_returns (os : OS) (ms : list string) :
  (∀ tr argv capture, ∃ result,
     os_subprocess_run os tr argv capture = Returned result) →
  ∀ successful failed tr, ∃ counts tr',
    main_loop os ms successful failed tr = (Returned counts, tr').
Proof.
  intros Hnoraise. induction ms as [|mission ms IH]; intros successful failed tr.
  - by eexists _, _.
  - cbn [main_loop]. unfold io_bind at 1. unfold path_exists.
    destruct (os_path_exists os tr mission); cbn [negb].
    + unfold execute_mission, io_bind, print, subprocess_run, sleep, io_ret.
      fold (@io_bind (nat * nat)).
      destruct (Hnoraise ((tr ++ [PathExists mission true])
                            ++ [Print ("Executing: " +:+ mission)])
                         (cargo_argv mission) true) as [result ->].
      destruct (Z.eqb (returncode result) 0); apply IH.
    + unfold io_bind, print. fold (@io_bind (nat * nat)). apply IH.
Qed.

(** No mission is listed twice. *)
Lemma missions_NoDup : NoDup missions.
Proof. apply (bool_decide_unpack _). by vm_compute. Qed.

Lemma registry_not_cargo (paths : list string) :
  registry_argv ∉ map cargo_argv paths.
Proof.
  intros Hin. apply list_elem_of_fmap in Hin as (path & Heq & _).
  discriminate Heq.
Qed.

Lemma summary_not_loop_line (successful failed : nat) :
  ¬ loop_line (summary_line successful failed).
Proof. unfold loop_line. by vm_compute. Qed.

Lemma main_unfold (os : OS) :
  main os [] =
    match main_loop os missions 0 0 [] with
    | (Returned counts, tr) =>
        match os_subprocess_run os (tr ++ [Print (summary_line counts.1 counts.2)])
                registry_argv false with
        | Returned result =>
            (Returned tt,
             (tr ++ [Print (summary_line counts.1 counts.2)])
               ++ [SubprocessRun registry_argv false (Returned result)])
        | Raised e =>
            (Raised e,
             (tr ++ [Print (summary_line counts.1 counts.2)])
               ++ [SubprocessRun registry_argv false (Raised e)])
        end
    | (Raised e, tr) => (Raised e, tr)
    end.
Proof.
  unfold main, io_bind, print, subprocess_run, io_ret.
  destruct (main_loop os missions 0 0 []) as [[counts|e] tr]; [|done].
  by destruct (os_subprocess_run os (tr ++ [Print (summary_line counts.1 counts.2)])
                 registry_argv false).
Qed.

(** X18: what [main] does when it returns.  Every mission of the list is
    looked up once, in list order; the commands run are the [cargo] command
    of each mission that was found, in that order, whatever their exit
    codes, followed by the registry command; nothing is run for a missing
    mission; and the script pauses five seconds per mission run. *)
Theorem main_runs_found_missions (os : OS) (tr : list event) :
  main os [] = (Returned tt, tr) →
  paths_checked tr = missions
  ∧ commands tr = map cargo_argv (paths_found tr) ++ [registry_argv]
  ∧ seconds_slept tr = 5 * length (paths_found tr)
  ∧ length (paths_found tr) + length (paths_missing tr) = 60.
Proof.
  rewrite main_unfold.
  destruct (main_loop os missions 0 0 []) as [[[successful failed]|e] tr1] eqn:Hloop;
    [|discriminate].
  apply main_loop_spec in Hloop
    as (evs & -> & Hcmd & _ & Hchk & Hsleep & _ & _ & _ & Hall).
  rewrite app_nil_l.
  destruct (os_subprocess_run _ _ _ _) as [result|e]; [|discriminate].
  intros [= <-]. split_readings. cbn.
  rewrite !app_nil_r, Hchk, Hcmd, Hsleep.
  change (length missions) with 60 in Hall.
  repeat split; lia.
Qed.

(** X19: the summary line of [main].  When [main] returns, the last line
    printed is the summary, and its two numbers are the number of missions
    whose [cargo] run exited with code 0 and the number whose run exited
    with another code; together they count the missions found, and with
    the missing ones they add up to the sixty of the list. *)
Theorem main_summary_counts (os : OS) (tr : list event) :
  main os [] = (Returned tt, tr) →
  last (lines_printed tr)
    = Some (summary_line (length (filter (λ z, z = 0%Z) (exit_codes tr)))
                         (length (filter (λ z, z ≠ 0%Z) (exit_codes tr))))
  ∧ length (filter (λ z, z = 0%Z) (exit_codes tr))
    + length (filter (λ z, z ≠ 0%Z) (exit_codes tr))
    = length (paths_found tr)
  ∧ length (filter (λ z, z = 0%Z) (exit_codes tr))
    + length (filter (λ z, z ≠ 0%Z) (exit_codes tr))
    + length (paths_missing tr) = 60.
Proof.
  rewrite main_unfold.
  destruct (main_loop os missions 0 0 []) as [[[successful failed]|e] tr1] eqn:Hloop;
    [|discriminate].
  apply main_loop_spec in Hloop
    as (evs & -> & _ & _ & _ & _ & Hlen & Hs & Hf & Hall).
  rewrite app_nil_l.
  destruct (os_subprocess_run _ _ _ _) as [result|e]; [|discriminate].
  intros [= <-]. split_readings. cbn [fst snd].
  change (length missions) with 60 in Hall.
  assert (length (filter (λ z, z = 0%Z) (exit_codes evs))
          + length (filter (λ z, z ≠ 0%Z) (exit_codes evs))
          = length (exit_codes evs)) as Hsplit.
  { clear. induction (exit_codes evs) as [|z l IH]; [done|].
    rewrite !filter_cons. repeat case_decide; cbn [length]; try done; lia. }
  cbn. rewrite !app_nil_r, last_snoc, Hs, Hf. cbn. rewrite !Nat.add_0_r.
  repeat split; lia.
Qed.

(** X20: how [main] fails.  [main] raises only when a [subprocess.run]
    raises, and stops right there: the raising call is the last thing that
    happened.  When it is the [cargo] run of a mission, the missions looked
    up are those of the list up to that mission, in order, and none of the
    later ones; no summary is printed and the registry command is not run.
    Otherwise it is the registry command itself, after the whole loop and
    the summary. *)
Theorem main_raises_at_subprocess (os : OS) (e : Exn) (tr : list event) :
  main os [] = (Raised e, tr) →
  (∃ before mission after, missions = before ++ mission :: after
     ∧ paths_checked tr = before ++ [mission]
     ∧ (∀ later, later ∈ after → later ∉ paths_checked tr)
     ∧ last (paths_found tr) = Some mission
     ∧ last tr = Some (SubprocessRun (cargo_argv mission) true (Raised e))
     ∧ (registry_argv ∉ commands tr)
     ∧ ∀ successful failed, summary_line successful failed ∉ lines_printed tr)
  ∨ (last tr = Some (SubprocessRun registry_argv false (Raised e))
     ∧ paths_checked tr = missions
     ∧ ∃ successful failed, summary_line successful failed ∈ lines_printed tr).
Proof.
  rewrite main_unfold.
  destruct (main_loop os missions 0 0 []) as [[[successful failed]|e'] tr1] eqn:Hloop.
  - apply main_loop_spec in Hloop as (evs & -> & _ & _ & Hchk & _).
    rewrite app_nil_l.
    destruct (os_subprocess_run _ _ _ _) as [result|e'']; [discriminate|].
    intros [= <- <-]. right. split; [apply last_snoc|]. split_readings. cbn.
    rewrite !app_nil_r. split; [done|].
    exists successful, failed. apply elem_of_app. right. by left.
  - apply main_loop_spec in Hloop
      as (evs & -> & Hcmd & Hlines & before & m & after & Hms & Hchk & Hlast).
    rewrite app_nil_l. intros [= <- <-]. left.
    exists before, m, after. split; [done|]. split; [done|]. split; [|split].
    + intros later Hlater Hin. rewrite Hchk in Hin.
      pose proof missions_NoDup as Hnodup. rewrite Hms in Hnodup.
      apply NoDup_app in Hnodup as (_ & Hdisjoint & Hrest).
      apply NoDup_cons in Hrest as [Hm _].
      apply elem_of_app in Hin as [Hin | Hin%list_elem_of_singleton].
      * apply (Hdisjoint later Hin). by right.
      * by subst later.
    + apply last_Some in Hlast as [evs' ->].
      rewrite commands_app, paths_found_app in Hcmd. rewrite paths_found_app.
      cbn in Hcmd |- *. rewrite app_nil_r in Hcmd |- *.
      apply (f_equal last) in Hcmd. rewrite last_snoc in Hcmd.
      change (map cargo_argv (paths_found evs'))
        with (cargo_argv <$> paths_found evs') in Hcmd.
      rewrite fmap_last in Hcmd.
      destruct (last (paths_found evs')) as [found|]; [|discriminate].
      by injection Hcmd as <-.
    + split; [done|]. split.
      * rewrite Hcmd. apply registry_not_cargo.
      * intros successful failed Hin.
        apply (summary_not_loop_line successful failed).
        by apply (proj1 (Forall_forall _ _) Hlines).
Qed.

(** X21: a mission that fails does not stop [main].  If no [subprocess.run]
    call raises, [main] returns, for every answer of the file system and
    every exit code. *)
Theorem main_returns_unless_subprocess_raises (os : OS) :
  (∀ tr argv capture, ∃ result,
     os_subprocess_run os tr argv capture = Returned result) →
  ∃ tr, main os [] = (Returned tt, tr).
Proof.
  intros Hnoraise. rewrite main_unfold.
  destruct (main_loop_returns os missions Hnoraise 0 0 []) as (counts & tr & ->).
  destruct (Hnoraise (tr ++ [Print (summary_line counts.1 counts.2)])
                     registry_argv false) as [result ->].
  by eexists.
Qed.

(** X18 run on a machine where two missions exist. *)
Lemma main_two_found_example :
  paths_checked (main CoverageExamples.two_found []).2 = missions
  ∧ commands (main CoverageExamples.two_found []).2
    = map cargo_argv (paths_found (main CoverageExamples.two_found []).2)
        ++ [registry_argv]
  ∧ seconds_slept (main CoverageExamples.two_found []).2
    = 5 * length (paths_found (main CoverageExamples.two_found []).2)
  ∧ length (paths_found (main CoverageExamples.two_found []).2)
    + length (paths_missing (main CoverageExamples.two_found []).2) = 60.
Proof.
  apply (main_runs_found_missions CoverageExamples.two_found).
  vm_compute. reflexivity.
Defined.

(** X19 run on the same machine: one mission succeeds and one fails. *)
Lemma main_summary_example :
  last (lines_printed (main CoverageExamples.two_found []).2)
    = Some (summary_line 1 1).
Proof.
  destruct (main_summary_counts CoverageExamples.two_found
              (main CoverageExamples.two_found []).2) as (Hlast & _).
  { vm_compute. reflexivity. }
  rewrite Hlast. vm_compute. reflexivity.
Defined.

(** X20 run on a machine without [cargo]: the run stops at the first
    mission, which is the only one looked up. *)
Lemma main_without_cargo_example :
  (∃ before mission after, missions = before ++ mission :: after
     ∧ paths_checked (main CoverageExamples.cargo_missing []).2
       = before ++ [mission]
     ∧ (∀ later, later ∈ after
          → later ∉ paths_checked (main CoverageExamples.cargo_missing []).2)
     ∧ last (paths_found (main CoverageExamples.cargo_missing []).2)
       = Some mission
     ∧ last (main CoverageExamples.cargo_missing []).2
       = Some (SubprocessRun (cargo_argv mission) true
                 (Raised CoverageExamples.file_not_found))
     ∧ (registry_argv ∉ commands (main CoverageExamples.cargo_missing []).2)
     ∧ ∀ successful failed,
         summary_line successful failed
           ∉ lines_printed (main CoverageExamples.cargo_missing []).2)
  ∨ (last (main CoverageExamples.cargo_missing []).2
       = Some (SubprocessRun registry_argv false
                 (Raised CoverageExamples.file_not_found))
     ∧ paths_checked (main CoverageExamples.cargo_missing []).2 = missions
     ∧ ∃ successful failed,
         summary_line successful failed
           ∈ lines_printed (main CoverageExamples.cargo_missing []).2).
Proof.
  apply (main_raises_at_subprocess CoverageExamples.cargo_missing).
  vm_compute. reflexivity.
Defined.

(** On that machine exactly one mission is looked up. *)
Example main_without_cargo_lookups :
  paths_checked (main CoverageExamples.cargo_missing []).2
    = [CoverageExamples.mission_001].
Proof. vm_compute. reflexivity. Qed.

(** X21 run on the machine where two missions exist. *)
Lemma main_returns_example :
  ∃ tr, main CoverageExamples.two_found [] = (Returned tt, tr).
Proof.
  apply (main_returns_unless_subprocess_raises CoverageExamples.two_found).
  intros tr argv capture. eexists. reflexivity.
Defined.

End CoverageFacts.

(** ** The Shimmy chat demo *)

Module ShimmyFacts.

Import Shimmy.

(** X22: [check_shimmy_health] is true exactly for status 200.  Any other
    status and any [RequestException] give false; it makes one GET of the
    health URL with a timeout of two seconds, never exits, and lets only
    exceptions through that are not [RequestException]s. *)
Theorem health_true_iff_200 (out : Outside) (tr : list event) :
  (check_shimmy_health out tr).2
    = tr ++ [HttpGet health_url 2 (http_get out tr health_url 2)]
  ∧ ((check_shimmy_health out tr).1 = Ok true
     ↔ http_get out tr health_url 2 = Answered 200%Z)
  ∧ (∀ e, (check_shimmy_health out tr).1 = Raise e →
          http_get out tr health_url 2 = Failed e ∧ is_request_exception e = false)
  ∧ (∀ e, http_get out tr health_url 2 = Failed e → is_request_exception e = true →
          (check_shimmy_health out tr).1 = Ok false)
  ∧ (∀ code, (check_shimmy_health out tr).1 ≠ SysExit code).
Proof.
  unfold check_shimmy_health, io_try, io_bind, requests_get, io_ret.
  destruct (http_get out tr health_url 2) as [status|e]; cbn [of_answer fst snd].
  - split; [done|]. split.
    + split; [intros [= Heq%Z.eqb_eq]; by subst | intros [= ->]; done].
    + repeat split; try done.
  - destruct (is_request_exception e) eqn:Hreq; cbn [fst snd].
    + split; [done|]. split; [split; done|].
      repeat split; try done.
    + split; [done|]. split; [split; done|].
      split; [intros e' [= <-]; done|].
      split; [intros e' [= <-] Htrue; congruence | done].
Qed.

Lemma res_bind_ok {A B : Type} (r : result A) (k : A → result B) (b : B) :
  res_bind r k = Ok b ↔ ∃ a, r = Ok a ∧ k a = Ok b.
Proof.
  destruct r as [a|e|code]; cbn; split; try done.
  - intros H. by exists a.
  - by intros (a' & [= <-] & H).
  - by intros (a' & [=] & _).
  - by intros (a' & [=] & _).
Qed.

Lemma subscript_key_ok (v : json) (key : string) (x : json) :
  subscript_key v key = Ok x ↔ ∃ fields, v = JObj fields ∧ fields !! key = Some x.
Proof.
  destruct v as [| | | | | |fields]; cbn;
    try (split; [done | by intros (? & [=] & _)]).
  destruct (fields !! key) as [y|] eqn:Hlook; split.
  - intros [= <-]. by exists fields.
  - intros (? & [= <-] & H). congruence.
  - done.
  - intros (? & [= <-] & H). congruence.
Qed.

Lemma subscript_zero_obj (v : json) (fields : gmap string json) :
  subscript_zero v = Ok (JObj fields) ↔ ∃ rest, v = JArr (JObj fields :: rest).
Proof.
  destruct v as [| | | |s|[|x rest]|]; cbn;
    try (split; [done | by intros (? & [=])]).
  - destruct s; split; try done; by intros (? & [=]).
  - split; [intros [= ->]; by exists rest | by intros (? & [= -> ->])].
Qed.

Lemma raise_for_status_ok (response : Response) :
  raise_for_status response = Ok tt
  ↔ (status_code response < 400)%Z ∨ (600 ≤ status_code response)%Z.
Proof.
  unfold raise_for_status.
  destruct ((400 <=? status_code response)%Z && (status_code response <? 600)%Z)
    eqn:Hrange.
  - apply andb_true_iff in Hrange as [? ?]. split; [done | lia].
  - apply andb_false_iff in Hrange. split; [lia | done].
Qed.

Lemma chat_spec (out : Outside) (user_input : string)
    (tr : list event) (content : json) :
  (chat_with_llm out user_input tr).2
    = tr ++ [HttpPost chat_url (chat_payload user_input) 15
               (http_post out tr chat_url (chat_payload user_input) 15)]
  ∧ ((chat_with_llm out user_input tr).1 = Ok content
     ↔ well_formed_reply
         (http_post out tr chat_url (chat_payload user_input) 15) content)
  ∧ (∀ response,
       http_post out tr chat_url (chat_payload user_input) 15 = Answered response →
       (400 ≤ status_code response < 600)%Z →
       (chat_with_llm out user_input tr).1
         = Raise {| class := HTTPError; detail := error_text response |})
  ∧ (∀ code, (chat_with_llm out user_input tr).1 ≠ SysExit code).
Proof.
  unfold chat_with_llm, io_bind, requests_post, io_lift, well_formed_reply.
  destruct (http_post out tr chat_url (chat_payload user_input) 15)
    as [response|e]; cbn [of_answer fst snd].
  - split; [done|]. split; [|split].
    + rewrite res_bind_ok. split.
      * intros ([] & Hstatus%raise_for_status_ok & Hrest).
        apply res_bind_ok in Hrest as (body & Hbody & Hrest).
        apply res_bind_ok in Hrest as (choices & Hchoices & Hrest).
        apply res_bind_ok in Hrest as (choice & Hchoice & Hrest).
        apply res_bind_ok in Hrest as (message & Hmessage & Hcontent).
        apply subscript_key_ok in Hcontent as (mfields & -> & Hcontent).
        apply subscript_key_ok in Hmessage as (cfields & -> & Hmessage).
        apply subscript_zero_obj in Hchoice as (rest & ->).
        apply subscript_key_ok in Hchoices as (bfields & -> & Hchoices).
        exists response, bfields, cfields, rest, mfields.
        repeat split; try done.
        unfold response_json in Hbody.
        by destruct (json_body response) as [b|]; cbn in Hbody; simplify_eq.
      * intros (r & body & choice & rest & message
                & [= <-] & Hstatus & Hbody & Hchoices & Hmessage & Hcontent).
        exists tt. split; [by apply raise_for_status_ok|].
        unfold response_json. rewrite Hbody. cbn. rewrite Hchoices. cbn.
        rewrite Hmessage. cbn. by rewrite Hcontent.
    + intros r [= <-] Hrange. unfold raise_for_status.
      assert ((400 <=? status_code response)%Z && (status_code response <? 600)%Z
              = true) as -> by (apply andb_true_iff; split; lia).
      done.
    + intros code. unfold raise_for_status, response_json.
      destruct ((400 <=? status_code response)%Z && (status_code response <? 600)%Z);
        [done|]. cbn.
      destruct (json_body response) as [body|]; [|done]. cbn.
      destruct (subscript_key body "choices") as [choices| |] eqn:H1; cbn; try done.
      * destruct (subscript_zero choices) as [choice| |] eqn:H2; cbn; try done.
        -- destruct (subscript_key choice "message") as [message| |] eqn:H3; cbn;
             try done.
           ++ destruct message as [| | | | | |m]; cbn; try done.
              by destruct (m !! "content").
           ++ destruct choice as [| | | | | |m]; cbn in H3; try done.
              by destruct (m !! "message").
        -- destruct choices as [| | | |s|[|]|]; cbn in H2; try done.
           by destruct s.
      * destruct body as [| | | | | |m]; cbn in H1; try done.
        by destruct (m !! "choices").
  - split; [done|]. split; [|split]; try done.
    split; [done | by intros (? & ? & ? & ? & ? & [=] & _)].
Qed.


Lemma health_cases (out : Outside) (tr : list event) :
  check_shimmy_health out tr
    = (match http_get out tr health_url 2 with
       | Answered status => Ok (Z.eqb status 200)
       | Failed e => if is_request_exception e then Ok false else Raise e
       end,
       tr ++ [HttpGet health_url 2 (http_get out tr health_url 2)]).
Proof.
  unfold check_shimmy_health, io_try, io_bind, requests_get, io_ret.
  destruct (http_get out tr health_url 2) as [status|e]; cbn [of_answer]; [done|].
  by destruct (is_request_exception e).
Qed.

Lemma chat_trace (out : Outside) (user_input : string) (tr : list event) :
  (chat_with_llm out user_input tr).2
    = tr ++ [HttpPost chat_url (chat_payload user_input) 15
               (http_post out tr chat_url (chat_payload user_input) 15)]
  ∧ ∀ code, (chat_with_llm out user_input tr).1 ≠ SysExit code.
Proof.
  destruct (chat_spec out user_input tr JNull)
    as (Htrace & _ & _ & Hexit).
  by split.
Qed.

(** The whole of [run_demo] from an empty trace, case by case. *)
Lemma run_demo_cases (out : Outside) :
  run_demo out [] =
    match http_get out banner health_url 2 with
    | Answered status =>
        let tr2 := banner ++ [HttpGet health_url 2 (Answered status)] in
        if Z.eqb status 200 then
          let tr3 := tr2 ++ [Print "Shimmy connection established"] in
          match read_line out tr3 prompt with
          | Answered user_query =>
              let tr4 := tr3 ++ [Input prompt (Answered user_query)] in
              if strip_is_empty user_query then
                (Ok tt, tr4 ++ [Print "No input provided"])
              else
                match (chat_with_llm out user_query tr4).1 with
                | Ok llm_output =>
                    (Ok tt,
                     (chat_with_llm out user_query tr4).2
                       ++ [PrintF (CoverageMissions.newline +:+ "Response: ")
                                  (FmtJson llm_output);
                           Print footer])
                | Raise e =>
                    (Ok tt,
                     (chat_with_llm out user_query tr4).2
                       ++ [PrintF (if is_http_error e then "HTTP error: "
                                   else "Unexpected error: ") (FmtExn e);
                           Print footer])
                | SysExit code => (SysExit code, (chat_with_llm out user_query tr4).2)
                end
          | Failed e => (Raise e, tr3 ++ [Input prompt (Failed e)])
          end
        else
          (SysExit 1,
           tr2 ++ [Print "Cannot reach Shimmy at localhost:11435";
                   Print "Install: github.com/Michael-A-Kuykendall/shimmy"])
    | Failed e =>
        let tr2 := banner ++ [HttpGet health_url 2 (Failed e)] in
        if is_request_exception e then
          (SysExit 1,
           tr2 ++ [Print "Cannot reach Shimmy at localhost:11435";
                   Print "Install: github.com/Michael-A-Kuykendall/shimmy"])
        else (Raise e, tr2)
    end.
Proof.
  unfold run_demo, io_bind at 1 2 3. unfold print at 1 2. cbn [app].
  fold banner. rewrite health_cases.
  destruct (http_get out banner health_url 2) as [status|e].
  - destruct (Z.eqb status 200); cbn [negb].
    + unfold io_bind at 1 2, print at 1, input. fold prompt.
      destruct (read_line out _ prompt) as [user_query|e]; cbn [of_answer]; [|done].
      destruct (strip_is_empty user_query); [done|].
      unfold io_bind at 1, io_try, io_bind at 1.
      destruct (chat_with_llm out user_query _) as [[llm_output|e|code] tr5];
        cbn [fst snd]; unfold print_f, print, footer.
      * by rewrite <- app_assoc.
      * destruct (is_http_error e); by rewrite <- app_assoc.
      * done.
    + unfold io_bind, print, sys_exit. by rewrite <- app_assoc.
  - destruct (is_request_exception e); cbn [negb]; [|done].
    unfold io_bind, print, sys_exit. by rewrite <- app_assoc.
Qed.

Lemma posts_app (tr1 tr2 : list event) : posts (tr1 ++ tr2) = posts tr1 ++ posts tr2.
Proof. apply flat_map_app. Qed.

Lemma inputs_read_app (tr1 tr2 : list event) :
  inputs_read (tr1 ++ tr2) = inputs_read tr1 ++ inputs_read tr2.
Proof. apply flat_map_app. Qed.

Lemma health_replies_app (tr1 tr2 : list event) :
  health_replies (tr1 ++ tr2) = health_replies tr1 ++ health_replies tr2.
Proof. apply flat_map_app. Qed.

Ltac read_trace :=
  rewrite ?posts_app, ?inputs_read_app, ?health_replies_app; cbn.

(** X24: the chat endpoint is guarded.  In a run of [run_demo] it is posted
    to at most once, and only after the health check answered 200 and the
    user typed a line that is not blank; the payload carries that line as
    typed, without stripping. *)
Theorem llm_called_only_after_checks (out : Outside) :
  posts (run_demo out []).2 = []
  ∨ ∃ user_query,
      posts (run_demo out []).2 = [(chat_url, chat_payload user_query)]
      ∧ health_replies (run_demo out []).2 = [Answered 200%Z]
      ∧ inputs_read (run_demo out []).2 = [Answered user_query]
      ∧ strip_is_empty user_query = false.
Proof.
  rewrite run_demo_cases.
  destruct (http_get out banner health_url 2) as [status|e]; cbn zeta.
  - destruct (Z.eqb status 200) eqn:Hstatus; [|left; by read_trace].
    apply Z.eqb_eq in Hstatus as ->.
    destruct (read_line out _ prompt) as [user_query|e]; [|left; by read_trace].
    destruct (strip_is_empty user_query) eqn:Hblank; [left; by read_trace|].
    right. exists user_query.
    destruct (chat_trace out user_query
                (((banner ++ [HttpGet health_url 2 (Answered 200%Z)])
                    ++ [Print "Shimmy connection established"])
                   ++ [Input prompt (Answered user_query)])) as [Htrace Hexit].
    destruct (chat_with_llm out user_query _) as [[llm_output|e|code] tr5];
      cbn [fst snd] in *; [| |by destruct (Hexit code)];
      subst tr5; by read_trace.
  - destruct (is_request_exception e); left; by read_trace.
Qed.



(** X27: a blank line ends the demo quietly.  When the line read consists
    of white space only, [run_demo] prints ["No input provided"] and returns
    at once: nothing is posted and the footer is not printed. *)
Theorem blank_input_skips_chat (out : Outside) (user_query : string) :
  inputs_read (run_demo out []).2 = [Answered user_query] →
  strip_is_empty user_query = true →
  (run_demo out []).1 = Ok tt
  ∧ posts (run_demo out []).2 = []
  ∧ last (run_demo out []).2 = Some (Print "No input provided")
  ∧ Print footer ∉ (run_demo out []).2.
Proof.
  rewrite run_demo_cases.
  destruct (http_get out banner health_url 2) as [status|e]; cbn zeta.
  - destruct (Z.eqb status 200) eqn:Hstatus; [|by read_trace].
    destruct (read_line out _ prompt) as [line|e]; [|by read_trace].
    destruct (strip_is_empty line) eqn:Hblank.
    + cbn [fst snd]. read_trace. intros [= ->] _.
      split; [done|]. split; [done|]. split; [done|].
      intros H%list_elem_of_In. vm_compute in H.
      repeat (destruct H as [H|H]); try done; discriminate H.
    + destruct (chat_trace out line
                  (((banner ++ [HttpGet health_url 2 (Answered status)])
                     ++ [Print "Shimmy connection established"])
                     ++ [Input prompt (Answered line)])) as [Htrace Hexit].
      destruct (chat_with_llm out line _) as [[llm_output|e|code] tr5];
        cbn [fst snd] in *; [| |by destruct (Hexit code)]; subst tr5;
        read_trace; intros [= ->] Htrue; congruence.
  - destruct (is_request_exception e); by read_trace.
Qed.


(** X27 run with a user who types three spaces. *)
Lemma blank_input_example :
  (run_demo (ShimmyExamples.outside "   " ShimmyExamples.ok_reply) []).1 = Ok tt
  ∧ posts (run_demo (ShimmyExamples.outside "   " ShimmyExamples.ok_reply) []).2 = []
  ∧ last (run_demo (ShimmyExamples.outside "   " ShimmyExamples.ok_reply) []).2
    = Some (Print "No input provided")
  ∧ Print footer
    ∉ (run_demo (ShimmyExamples.outside "   " ShimmyExamples.ok_reply) []).2.
Proof.
  apply (blank_input_skips_chat
           (ShimmyExamples.outside "   " ShimmyExamples.ok_reply) "   ");
    vm_compute; reflexivity.
Defined.

(** [strip_is_empty] on the empty string, ASCII white space, a no-break
    space (U+00A0) followed by an ideographic space (U+3000), and on text. *)
Example strip_is_empty_examples :
  strip_is_empty "" = true
  ∧ strip_is_empty (String (ascii_of_nat 9) (String (ascii_of_nat 10) "  ")) = true
  ∧ strip_is_empty
      (String (ascii_of_nat 194) (String (ascii_of_nat 160)
         (String (ascii_of_nat 227) (String (ascii_of_nat 128)
            (String (ascii_of_nat 128) ""))))) = true
  ∧ strip_is_empty "  ?  " = false
  ∧ strip_is_empty (String (ascii_of_nat 194) (String (ascii_of_nat 169) "")) = false.
Proof. repeat split; vm_compute; reflexivity. Qed.

(** Two runs of the demo, evaluated. *)
Example run_demo_answers :
  (run_demo (ShimmyExamples.outside "Hi there" ShimmyExamples.ok_reply) []).1 = Ok tt
  ∧ last (run_demo (ShimmyExamples.outside "Hi there" ShimmyExamples.ok_reply) []).2
    = Some (Print footer)
  ∧ posts (run_demo (ShimmyExamples.outside "Hi there" ShimmyExamples.ok_reply) []).2
    = [(chat_url, chat_payload "Hi there")].
Proof. repeat split; vm_compute; reflexivity. Qed.

End ShimmyFacts.
